(** * Watt Watcher: the coordinator's classification and debounce engine

    A shallow embedding of [custom_components/watt_watcher/coordinator.py]
    and of the energy and status sensors of [sensor.py].

    Modelling choices:
    - a Python [float] reading or threshold is a rational [Q] (finite
      readings; comparisons of finite floats are exact rational comparisons);
    - a [datetime] is a [Z] count of microseconds; a tick samples
      [datetime.now()] once, as [now];
      [int((b - a).total_seconds())] is [Z.quot (b - a) 1000000];
    - the coordinator's mutable attributes form the record [coord], and each
      method takes and returns it explicitly;
    - the snapshot dictionary is an association list of [pyval]s. *)

From Stdlib Require Import ZArith QArith String Ascii List Bool Lia Sorted.
Import ListNotations.

Open Scope string_scope.
Open Scope Z_scope.
Set Warnings "-register-all".

(** ** Configuration *)

(** One entry of [states_config]: the dict with keys [CONF_STATE_NAME],
    [CONF_THRESHOLD], [CONF_COMPARISON], [CONF_ICON]. *)
Record state_def := mk_state_def {
  sd_name : string;
  sd_threshold : Q;
  sd_comparison : string;
  sd_icon : string
}.

(** Modelled from the spec: [COMPARISON_GREATER] and [COMPARISON_LESS] are
    imported from [const.py] but not defined there; the spec (section 6) gives
    their values as "greater" and "less". *)
Definition COMPARISON_GREATER : string := "greater".
Definition COMPARISON_LESS : string := "less".

Definition STATE_RUNNING : string := "running".
Definition STATE_OFF : string := "off".
Definition STATE_FINISHED : string := "finished".

(** The configuration read in [__init__]. Delays are whole seconds. *)
Record config := mk_config {
  states_config : list state_def;
  active_delay : Z;
  finished_delay : Z;
  idle_delay : Z;
  scan_interval : Z
}.

(** [self.has_bitti_state]. *)
Definition has_bitti_state (c : config) : bool :=
  existsb (fun s => String.eqb (sd_name s) "bitti") (states_config c).

(** [x in [a; b; ...]] on strings. *)
Definition str_in (x : string) (l : list string) : bool :=
  existsb (String.eqb x) l.

(** ** Time *)

Definition usec_per_sec : Z := 1000000.

(** [int((now - t0).total_seconds())]. *)
Definition seconds_since (t0 now : Z) : Z := Z.quot (now - t0) usec_per_sec.

(** [_get_timer_duration]: a [datetime] is always truthy. *)
Definition get_timer_duration (now : Z) (timer_start : option Z) : Z :=
  match timer_start with
  | Some t => seconds_since t now
  | None => 0
  end.

(** ** ThresholdClassifier: [_determine_state_by_thresholds] *)

Definition Qltb (x y : Q) : bool := negb (Qle_bool y x).

(** [power > state[CONF_THRESHOLD]] and [power < state[CONF_THRESHOLD]]. *)
Definition greater_matches (power : Q) (s : state_def) : bool :=
  Qltb (sd_threshold s) power.
Definition less_matches (power : Q) (s : state_def) : bool :=
  Qltb power (sd_threshold s).

(** The loop that appends to [greater_states] and [less_states]. *)
Fixpoint split_by_comparison (l : list state_def)
  : list state_def * list state_def :=
  match l with
  | [] => ([], [])
  | s :: rest =>
      let '(g, le) := split_by_comparison rest in
      if String.eqb (sd_comparison s) COMPARISON_GREATER then (s :: g, le)
      else if String.eqb (sd_comparison s) COMPARISON_LESS then (g, s :: le)
      else (g, le)
  end.

(** Python's [list.sort] is stable, also with [reverse=True]. [before x y]
    says that [x], which comes earlier in the input, stays before [y]. *)
Fixpoint insert_by (before : state_def -> state_def -> bool)
    (x : state_def) (l : list state_def) : list state_def :=
  match l with
  | [] => [x]
  | y :: rest => if before x y then x :: y :: rest else y :: insert_by before x rest
  end.

Fixpoint sort_by (before : state_def -> state_def -> bool)
    (l : list state_def) : list state_def :=
  match l with
  | [] => []
  | x :: rest => insert_by before x (sort_by before rest)
  end.

(** [sort(key=threshold, reverse=True)] and [sort(key=threshold)]. *)
Definition sort_desc : list state_def -> list state_def :=
  sort_by (fun x y => Qle_bool (sd_threshold y) (sd_threshold x)).
Definition sort_asc : list state_def -> list state_def :=
  sort_by (fun x y => Qle_bool (sd_threshold x) (sd_threshold y)).

(** [for state in l: if test(state): return state[CONF_STATE_NAME]]. *)
Fixpoint first_match (test : state_def -> bool) (l : list state_def)
  : option string :=
  match l with
  | [] => None
  | s :: rest => if test s then Some (sd_name s) else first_match test rest
  end.

Definition determine_state_by_thresholds (c : config) (power : Q) : string :=
  let '(greater_states, less_states) := split_by_comparison (states_config c) in
  match first_match (greater_matches power) (sort_desc greater_states) with
  | Some n => n
  | None =>
      match first_match (less_matches power) (sort_asc less_states) with
      | Some n => n
      | None =>
          if negb (has_bitti_state c) && Qltb power 1%Q then "idle" else "unknown"
      end
  end.

(** ** The coordinator's attributes *)

Record coord := mk_coord {
  current_power : Q;
  current_state : string;
  state_start_time : Z;
  cycle_start_time : option Z;
  active_timer_start : option Z;
  finished_timer_start : option Z;
  bitti_start_time : option Z
}.

(** [__init__], at time [now]. *)
Definition init_coord (now : Z) : coord :=
  mk_coord 0%Q "idle" now None None None None.

Definition set_active_timer (st : coord) (v : option Z) : coord :=
  mk_coord (current_power st) (current_state st) (state_start_time st)
    (cycle_start_time st) v (finished_timer_start st) (bitti_start_time st).
Definition set_finished_timer (st : coord) (v : option Z) : coord :=
  mk_coord (current_power st) (current_state st) (state_start_time st)
    (cycle_start_time st) (active_timer_start st) v (bitti_start_time st).
Definition set_bitti_start (st : coord) (v : option Z) : coord :=
  mk_coord (current_power st) (current_state st) (state_start_time st)
    (cycle_start_time st) (active_timer_start st) (finished_timer_start st) v.
Definition set_power (st : coord) (p : Q) : coord :=
  mk_coord p (current_state st) (state_start_time st)
    (cycle_start_time st) (active_timer_start st) (finished_timer_start st)
    (bitti_start_time st).

(** [current_state not in ["idle", "bitti", "unknown"]]. *)
Definition is_active_name (s : string) : bool :=
  negb (str_in s ["idle"; "bitti"; "unknown"]).

(** ** DebounceStateMachine *)

(** [_apply_delays]: the proposed state and the updated attributes. *)
Definition apply_delays (c : config) (now : Z) (st : coord)
    (threshold_state : string) : string * coord :=
  let cur := current_state st in
  if String.eqb cur "idle" then
    if negb (String.eqb threshold_state "idle")
       && negb (String.eqb threshold_state "unknown") then
      let t := match active_timer_start st with
               | None => Some now
               | Some t0 => Some t0
               end in
      let st1 := set_active_timer st t in
      if Z.leb (active_delay c) (get_timer_duration now t) then
        (threshold_state, set_active_timer st1 None)
      else ("idle", st1)
    else ("idle", set_active_timer st None)
  else if is_active_name cur then
    if has_bitti_state c && String.eqb threshold_state "bitti" then
      let t := match finished_timer_start st with
               | None => Some now
               | Some t0 => Some t0
               end in
      let st1 := set_finished_timer st t in
      if Z.leb (finished_delay c) (get_timer_duration now t) then
        ("bitti", set_bitti_start (set_finished_timer st1 None) (Some now))
      else (cur, st1)
    else
      let st1 := set_finished_timer st None in
      (if String.eqb threshold_state "unknown" then cur else threshold_state, st1)
  else
    (if String.eqb threshold_state "unknown" then cur else threshold_state, st).

(** [_check_idle_delay]. *)
Definition check_idle_delay (c : config) (now : Z) (st : coord)
    (proposed_state : string) : string * coord :=
  if String.eqb (current_state st) "bitti" then
    let t0 := match bitti_start_time st with
              | None => now
              | Some t => t
              end in
    let st1 := set_bitti_start st (Some t0) in
    if Z.leb (idle_delay c) (seconds_since t0 now) then
      ("idle", set_bitti_start st1 None)
    else ("bitti", st1)
  else if negb (String.eqb proposed_state "bitti") then
    (proposed_state, set_bitti_start st None)
  else (proposed_state, st).

(** ** CycleTracker: [_on_state_change] *)

Definition on_state_change (now : Z) (st : coord) (new_state : string) : coord :=
  let old_state := current_state st in
  let cycle :=
    if String.eqb old_state "idle" && is_active_name new_state then Some now
    else if is_active_name old_state && str_in new_state ["idle"; "bitti"] then
      match cycle_start_time st with
      | Some _ => None
      | None => None
      end
    else cycle_start_time st in
  mk_coord (current_power st) new_state now cycle
    (active_timer_start st) (finished_timer_start st) (bitti_start_time st).

(** [_get_state_duration] and [_get_cycle_duration]. *)
Definition get_state_duration (now : Z) (st : coord) : Z :=
  seconds_since (state_start_time st) now.

Definition get_cycle_duration (now : Z) (st : coord) : Z :=
  match cycle_start_time st with
  | Some t => if is_active_name (current_state st) then seconds_since t now else 0
  | None => 0
  end.

(** ** SnapshotBuilder *)

(** The Python values that occur in the coordinator's dictionaries. *)
Inductive pyval :=
| PyFloat (q : Q)
| PyInt (z : Z)
| PyStr (s : string)
| PyBool (b : bool)
| PyStates (l : list state_def)
| PyDict (d : list (string * pyval)).

Definition pydict := list (string * pyval).

(** [d.get(k)]: [None] when the key is absent. *)
Fixpoint dict_get (d : pydict) (k : string) : option pyval :=
  match d with
  | [] => None
  | (k', v) :: rest => if String.eqb k k' then Some v else dict_get rest k
  end.

(** [d.get(k, default)]. *)
Definition dict_get_or (d : pydict) (k : string) (default : pyval) : pyval :=
  match dict_get d k with
  | Some v => v
  | None => default
  end.

(** [v == s] for a string [s]. *)
Definition pyval_is_str (v : pyval) (s : string) : bool :=
  match v with
  | PyStr s' => String.eqb s' s
  | _ => false
  end.

Definition timing_settings (c : config) : pyval :=
  PyDict [("active_delay", PyInt (active_delay c));
          ("finished_delay", PyInt (finished_delay c));
          ("idle_delay", PyInt (idle_delay c))].

(** The dictionary returned at the end of a successful [_async_update_data]. *)
Definition build_snapshot (c : config) (now : Z) (st : coord) : pydict :=
  let cur := current_state st in
  let current_icon :=
    match find (fun s => String.eqb (sd_name s) cur) (rev (states_config c)) with
    | Some s => sd_icon s
    | None => "mdi:circle"
    end in
  let bitti_duration :=
    if String.eqb cur "bitti" then
      match bitti_start_time st with
      | Some t => seconds_since t now
      | None => 0
      end
    else 0 in
  [("current_power", PyFloat (current_power st));
   ("current_state", PyStr cur);
   ("current_icon", PyStr current_icon);
   ("state_duration", PyInt (get_state_duration now st));
   ("cycle_duration", PyInt (get_cycle_duration now st));
   ("is_active", PyBool (is_active_name cur));
   ("bitti_duration", PyInt bitti_duration);
   ("idle_remaining",
      PyInt (if String.eqb cur "bitti" then Z.max 0 (idle_delay c - bitti_duration) else 0));
   ("timing_settings", timing_settings c);
   ("states_config", PyStates (states_config c));
   ("timers", PyDict [("active_timer", PyInt (get_timer_duration now (active_timer_start st)));
                      ("finished_timer", PyInt (get_timer_duration now (finished_timer_start st)))])].

(** [_create_error_data]. *)
Definition create_error_data (c : config) : pydict :=
  [("current_power", PyFloat 0%Q);
   ("current_state", PyStr "error");
   ("current_icon", PyStr "mdi:alert-circle");
   ("state_duration", PyInt 0);
   ("cycle_duration", PyInt 0);
   ("is_active", PyBool false);
   ("bitti_duration", PyInt 0);
   ("idle_remaining", PyInt 0);
   ("timing_settings", timing_settings c);
   ("states_config", PyStates (states_config c));
   ("timers", PyDict [("active_timer", PyInt 0); ("finished_timer", PyInt 0)])].

(** ** One tick: [_async_update_data] *)

(** What [self.hass.states.get(power_entity)] gives: [None], or a state
    object whose [state] string is [raw_state]; [float_value] is what
    Python's [float(state.state)] returns, [None] when it raises
    [ValueError]. *)
Record sensor_state := mk_sensor_state {
  raw_state : string;
  float_value : option Q
}.

Definition reading := option sensor_state.

(** The numeric reading of a sensor state that holds the number [q]. *)
Definition numeric (q : Q) : reading := Some (mk_sensor_state "number" (Some q)).

(** The body of [_async_update_data] from [self.current_power = power] on. *)
Definition process_power (c : config) (now : Z) (st : coord) (power : Q)
  : pydict * coord :=
  let st0 := set_power st power in
  let threshold_state := determine_state_by_thresholds c power in
  let '(new_state, st1) := apply_delays c now st0 threshold_state in
  let '(new_state', st2) := check_idle_delay c now st1 new_state in
  let st3 :=
    if String.eqb new_state' (current_state st2) then st2
    else on_state_change now st2 new_state' in
  (build_snapshot c now st3, st3).

Definition async_update_data (c : config) (now : Z) (st : coord) (r : reading)
  : pydict * coord :=
  match r with
  | None => (create_error_data c, st)
  | Some s =>
      if str_in (raw_state s) ["unknown"; "unavailable"] then (create_error_data c, st)
      else
        match float_value s with
        | None => (create_error_data c, st)
        | Some power => process_power c now st power
        end
  end.

(** The coordinator driven by a list of ticks [(now, reading)]; the result is
    the list of snapshots and the final attributes. *)
Fixpoint run (c : config) (st : coord) (ticks : list (Z * reading))
  : list pydict * coord :=
  match ticks with
  | [] => ([], st)
  | (now, r) :: rest =>
      let '(d, st1) := async_update_data c now st r in
      let '(ds, st2) := run c st1 rest in
      (d :: ds, st2)
  end.

(** The authoritative state after each tick. *)
Fixpoint state_trace (c : config) (st : coord) (ticks : list (Z * reading))
  : list string :=
  match ticks with
  | [] => []
  | (now, r) :: rest =>
      let st1 := snd (async_update_data c now st r) in
      current_state st1 :: state_trace c st1 rest
  end.

(** ** Sensors of [sensor.py] *)

(** [WattWatcherStatusSensor.native_value]. *)
Definition status_native_value (d : pydict) : pyval :=
  dict_get_or d "state" (PyStr "unknown").

(** The attributes of [WattWatcherEnergySensor]. *)
Record energy_sensor := mk_energy_sensor {
  energy_this_cycle : Q;
  last_update_time : Z
}.

(** A number read from the snapshot, as Python arithmetic uses it; [None]
    for a value the multiplication rejects with [TypeError]. *)
Definition py_number (v : pyval) : option Q :=
  match v with
  | PyFloat q => Some q
  | PyInt z => Some (inject_Z z)
  | PyBool b => Some (if b then 1%Q else 0%Q)
  | _ => None
  end.

(** [WattWatcherEnergySensor._handle_coordinator_update]; [None] when it
    raises. *)
Definition energy_handle_update (now : Z) (d : pydict) (e : energy_sensor)
  : option energy_sensor :=
  let time_diff := (inject_Z (now - last_update_time e) / inject_Z usec_per_sec)%Q in
  match py_number (dict_get_or d "avg_power" (PyFloat 0%Q)) with
  | None => None
  | Some avg_power =>
      let energy_increment := (avg_power * (time_diff / 3600))%Q in
      let e1 :=
        match dict_get d "state" with
        | Some v => if pyval_is_str v STATE_RUNNING
                    then (energy_this_cycle e + energy_increment)%Q
                    else energy_this_cycle e
        | None => energy_this_cycle e
        end in
      let cs := dict_get_or d "state" (PyStr "unknown") in
      let e2 :=
        if negb (pyval_is_str cs STATE_RUNNING || pyval_is_str cs "unknown")
        then 0%Q else e1 in
      Some (mk_energy_sensor e2 now)
  end.

(** ** Scenario A of the spec *)

Definition sec (k : Z) : Z := k * usec_per_sec.

(** [n] ticks [scanInterval] = 10 s apart from second [start], all reading [p]. *)
Definition ticks_from (start : Z) (n : nat) (p : Q) : list (Z * reading) :=
  map (fun k => (sec (start + 10 * Z.of_nat k), numeric p)) (seq 0 n).

(** 80 W for 70 s, then 2 W for 310 s, then 2 W for 610 s more. *)
Definition scenario_a_ticks : list (Z * reading) :=
  (ticks_from 0 8 80 ++ ticks_from 80 31 2 ++ ticks_from 390 61 2)%list.

(** [states=[{run,50,">"}, {done,5,"<"}]] with the spec's delays. *)
Definition scenario_a : config :=
  mk_config [mk_state_def "run" 50 COMPARISON_GREATER "mdi:play";
             mk_state_def "done" 5 COMPARISON_LESS "mdi:check"] 60 300 600 10.

(** The same with the finish state under the name the code recognises. *)
Definition scenario_a_bitti : config :=
  mk_config [mk_state_def "run" 50 COMPARISON_GREATER "mdi:play";
             mk_state_def "bitti" 5 COMPARISON_LESS "mdi:check"] 60 300 600 10.

(** ** Entity helpers *)

(** [WattWatcherEntity.available] given [super().available]. *)
Definition entity_available (coordinator_available : bool) (d : pydict) : bool :=
  coordinator_available &&
  match dict_get d "current_state" with
  | Some v => negb (pyval_is_str v "error")
  | None => true
  end.

(** A reading the coordinator turns into a number. *)
Definition valid_reading (r : reading) (p : Q) : Prop :=
  exists s, r = Some s /\ str_in (raw_state s) ["unknown"; "unavailable"] = false
            /\ float_value s = Some p.

(** A reading the coordinator rejects: missing, unavailable/unknown or not a
    number. *)
Definition invalid_reading (r : reading) : Prop :=
  r = None \/
  exists s, r = Some s /\ (str_in (raw_state s) ["unknown"; "unavailable"] = true
                          \/ float_value s = None).

(** [WattWatcherCycleDurationSensor]: its attributes [_cycle_start_time],
    [_last_cycle_duration] and [_total_cycles]. *)
Record cycle_sensor := mk_cycle_sensor {
  cs_cycle_start : option Z;
  cs_last_cycle_duration : Z;
  cs_total_cycles : Z
}.

(** [WattWatcherCycleDurationSensor._handle_coordinator_update]. *)
Definition cycle_handle_update (now : Z) (d : pydict) (cs : cycle_sensor) : cycle_sensor :=
  let current_state := dict_get_or d "state" (PyStr "unknown") in
  if pyval_is_str current_state STATE_RUNNING then
    match cs_cycle_start cs with
    | None => mk_cycle_sensor (Some now) (cs_last_cycle_duration cs) (cs_total_cycles cs)
    | Some _ => cs
    end
  else
    match cs_cycle_start cs with
    | Some t =>
        if pyval_is_str current_state STATE_FINISHED || pyval_is_str current_state STATE_OFF
        then mk_cycle_sensor None (seconds_since t now) (cs_total_cycles cs + 1)
        else cs
    | None => cs
    end.

(** [WattWatcherCycleDurationSensor.native_value]. *)
Definition cycle_native_value (now : Z) (cs : cycle_sensor) : Z :=
  match cs_cycle_start cs with
  | Some t => seconds_since t now
  | None => 0
  end.

(** [WattWatcherPowerSensor.native_value] before rounding:
    [self.coordinator.data.get("power", 0.0)]. *)
Definition power_sensor_source (d : pydict) : pyval :=
  dict_get_or d "power" (PyFloat 0%Q).

(** [WattWatcherActiveSensor.is_on]: [self.coordinator.data.get("is_active", False)]. *)
Definition active_sensor_is_on (d : pydict) : pyval :=
  dict_get_or d "is_active" (PyBool false).

(** The [hours], [minutes] and [seconds] attributes of
    [WattWatcherStateDurationSensor.extra_state_attributes]; Python's [//]
    and [%] are [Z.div] and [Z.modulo] (both round towards minus infinity). *)
Definition duration_parts (duration : Z) : Z * Z * Z :=
  (duration / 3600, (duration mod 3600) / 60, duration mod 60).

(** The invariant the coordinator keeps between ticks: the state is
    ["idle"] or a configured name and never ["unknown"]; the [bitti] start
    time is only set in [bitti]; the active timer only runs in ["idle"]; the
    finished timer only runs in an active state; a cycle is open exactly in
    an active state. *)
Definition coord_inv (c : config) (st : coord) : Prop :=
  current_state st <> "unknown" /\
  (current_state st = "idle" \/
   exists sd, In sd (states_config c) /\ sd_name sd = current_state st) /\
  (current_state st <> "bitti" -> bitti_start_time st = None) /\
  (current_state st <> "idle" -> active_timer_start st = None) /\
  (is_active_name (current_state st) = false -> finished_timer_start st = None) /\
  (cycle_start_time st <> None <-> is_active_name (current_state st) = true).

(** Ticks that all carry a numeric reading, given as [(now, power)]. *)
Definition numeric_ticks (l : list (Z * Q)) : list (Z * reading) :=
  map (fun tq => (fst tq, numeric (snd tq))) l.

(** The guard of the ["idle"] branch of [_apply_delays], on the reading's
    classification: [threshold_state not in ["idle", "unknown"]]. *)
Definition idle_guard (c : config) (p : Q) : bool :=
  let ts := determine_state_by_thresholds c p in
  negb (String.eqb ts "idle") && negb (String.eqb ts "unknown").

(** ** The Active binary sensor's status message *)

(** [str(n)] for a Python [int]: its decimal digits, [fuel] bounding their
    number. *)
Fixpoint z_digits (fuel : nat) (n : Z) (acc : string) : string :=
  match fuel with
  | O => acc
  | S f =>
      let acc' := String (ascii_of_nat (48 + Z.to_nat (n mod 10))) acc in
      if n <? 10 then acc' else z_digits f (n / 10) acc'
  end.

Definition py_str_int (z : Z) : string :=
  if z <? 0 then "-" ++ z_digits (Z.to_nat (Z.log2 (- z) + 1)) (- z) ""
  else z_digits (Z.to_nat (Z.log2 z + 1)) z "".

(** [d.get(k, default)] on a value that should be a dict; the [{}] default
    of [extra_state_attributes] makes a missing dict an empty one. *)
Definition pyval_get (v : pyval) (k : string) (default : pyval) : pyval :=
  match v with
  | PyDict d => dict_get_or d k default
  | _ => default
  end.

(** The [int] a dictionary value holds; the coordinator stores every timer,
    delay and remaining time as an [int]. *)
Definition pyval_int (v : pyval) : option Z :=
  match v with
  | PyInt z => Some z
  | _ => None
  end.

(** Python truthiness of the values [is_on] can return. *)
Definition pyval_truthy (v : pyval) : bool :=
  match v with
  | PyBool b => b
  | PyInt z => negb (Z.eqb z 0)
  | PyFloat q => negb (Qeq_bool q 0)
  | PyStr s => negb (String.eqb s "")
  | PyStates l => match l with [] => false | _ => true end
  | PyDict l => match l with [] => false | _ => true end
  end.

(** [status_message] of [WattWatcherActiveSensor.extra_state_attributes];
    [None] when one of the numbers it formats is not an [int]. *)
Definition status_message (d : pydict) : option string :=
  let timing := dict_get_or d "timing_settings" (PyDict []) in
  let timers := dict_get_or d "timers" (PyDict []) in
  let current_state := dict_get_or d "current_state" (PyStr "idle") in
  match pyval_int (dict_get_or d "idle_remaining" (PyInt 0)),
        pyval_int (pyval_get timers "active_timer" (PyInt 0)),
        pyval_int (pyval_get timing "active_delay" (PyInt 60)) with
  | Some idle_remaining, Some active_timer, Some active_delay =>
      let active_remaining :=
        if active_timer <? active_delay then Z.max 0 (active_delay - active_timer)
        else 0 in
      if pyval_is_str current_state "bitti" then
        Some ("Bekliyor (" ++ py_str_int idle_remaining ++ "s)")
      else if negb (pyval_truthy (active_sensor_is_on d)) &&
              negb (pyval_is_str current_state "idle") then
        Some ("Aktif oluyor (" ++ py_str_int active_remaining ++ "s)")
      else Some "Hazır"
  | _, _, _ => None
  end.

(** * Lemmas *)

Lemma str_eqb_refl (s : string) : String.eqb s s = true.
Proof. apply String.eqb_refl. Qed.

Lemma is_active_name_spec (s : string) :
  is_active_name s = true ->
  String.eqb s "idle" = false /\ String.eqb s "bitti" = false /\
  String.eqb s "unknown" = false.
Proof.
  unfold is_active_name, str_in; simpl.
  destruct (String.eqb s "idle"), (String.eqb s "bitti"), (String.eqb s "unknown");
    simpl; intuition discriminate.
Qed.

Lemma split_by_comparison_fst (l : list state_def) (s : state_def) :
  In s (fst (split_by_comparison l)) <->
  In s l /\ sd_comparison s = COMPARISON_GREATER.
Proof.
  induction l as [|x rest IH]; simpl; [tauto|].
  destruct (split_by_comparison rest) as [g le] eqn:E; simpl in *.
  destruct (String.eqb (sd_comparison x) COMPARISON_GREATER) eqn:Hg.
  - apply String.eqb_eq in Hg. simpl. rewrite IH.
    split; [intros [<-|[? ?]]; auto | intros [[<-|?] ?]; auto].
  - apply String.eqb_neq in Hg.
    destruct (String.eqb (sd_comparison x) COMPARISON_LESS); simpl; rewrite IH;
      (split; [intros [? ?]; auto | intros [[<-|?] ?]; [contradiction|auto]]).
Qed.

Lemma split_by_comparison_snd (l : list state_def) (s : state_def) :
  In s (snd (split_by_comparison l)) <->
  In s l /\ sd_comparison s = COMPARISON_LESS.
Proof.
  induction l as [|x rest IH]; simpl; [tauto|].
  destruct (split_by_comparison rest) as [g le] eqn:E; simpl in *.
  destruct (String.eqb (sd_comparison x) COMPARISON_GREATER) eqn:Hg.
  - apply String.eqb_eq in Hg. rewrite IH.
    split; [intros [? ?]; auto | intros [[<-|?] ?]; [|auto]].
    rewrite Hg in *. discriminate.
  - destruct (String.eqb (sd_comparison x) COMPARISON_LESS) eqn:Hl; simpl; rewrite IH.
    + apply String.eqb_eq in Hl.
      split; [intros [<-|[? ?]]; auto | intros [[<-|?] ?]; auto].
    + apply String.eqb_neq in Hl.
      split; [intros [? ?]; auto | intros [[<-|?] ?]; [contradiction|auto]].
Qed.

Lemma insert_by_In before x l y :
  In y (insert_by before x l) <-> y = x \/ In y l.
Proof.
  induction l as [|z rest IH]; simpl; [intuition congruence|].
  destruct (before x z); simpl; [intuition congruence|]. rewrite IH.
  intuition congruence.
Qed.

Lemma sort_by_In before l y : In y (sort_by before l) <-> In y l.
Proof.
  induction l as [|x rest IH]; simpl; [tauto|].
  rewrite insert_by_In, IH. intuition.
Qed.

Lemma first_match_None test l :
  first_match test l = None <-> forall s, In s l -> test s = false.
Proof.
  induction l as [|x rest IH]; simpl.
  - split; [intros _ s []|reflexivity].
  - destruct (test x) eqn:Ht; split.
    + discriminate.
    + intros H. rewrite (H x (or_introl eq_refl)) in Ht. discriminate.
    + intros H s [<-|Hs]; [assumption|]. apply IH; assumption.
    + intros H. apply IH. intros s Hs. apply H. right. exact Hs.
Qed.

(** Insertion keeps a list strongly sorted for a total, transitive [before]. *)
Section SortBy.
Variable before : state_def -> state_def -> bool.
Hypothesis before_total : forall x y, before x y = false -> before y x = true.
Hypothesis before_trans :
  forall x y z, before x y = true -> before y z = true -> before x z = true.

Lemma insert_by_sorted x l :
  StronglySorted (fun a b => before a b = true) l ->
  StronglySorted (fun a b => before a b = true) (insert_by before x l).
Proof.
  induction l as [|y rest IH]; simpl; intros Hs.
  - repeat constructor.
  - inversion Hs as [|? ? Hrest Hall]; subst.
    destruct (before x y) eqn:Hxy.
    + constructor; [exact Hs|]. constructor; [exact Hxy|].
      eapply Forall_impl; [|exact Hall]. intros z Hz. eauto.
    + constructor; [apply IH; exact Hrest|].
      apply Forall_forall. intros z Hz. apply insert_by_In in Hz as [->|Hz].
      * apply before_total; exact Hxy.
      * eapply Forall_forall in Hall; [exact Hall|exact Hz].
Qed.

Lemma sort_by_sorted l :
  StronglySorted (fun a b => before a b = true) (sort_by before l).
Proof.
  induction l as [|x rest IH]; simpl; [constructor|].
  apply insert_by_sorted; exact IH.
Qed.
End SortBy.

Lemma first_match_Some_sorted (R : state_def -> state_def -> Prop) test l n :
  StronglySorted R l -> first_match test l = Some n ->
  exists s, In s l /\ test s = true /\ sd_name s = n /\
    forall s', In s' l -> test s' = true -> s' = s \/ R s s'.
Proof.
  induction l as [|x rest IH]; simpl; intros Hs Hm; [discriminate|].
  inversion Hs as [|? ? Hrest Hall]; subst.
  destruct (test x) eqn:Ht.
  - injection Hm as <-. exists x. repeat split; auto.
    intros s' [<-|Hs'] _; [left; reflexivity|].
    right. eapply Forall_forall in Hall; [exact Hall|exact Hs'].
  - destruct (IH Hrest Hm) as (s & Hin & Hts & Hn & Hmax).
    exists s. repeat split; auto.
    intros s' [<-|Hs'] Hts'; [rewrite Ht in Hts'; discriminate|].
    apply Hmax; assumption.
Qed.

Lemma desc_total x y :
  Qle_bool (sd_threshold y) (sd_threshold x) = false ->
  Qle_bool (sd_threshold x) (sd_threshold y) = true.
Proof.
  intros H. apply Qle_bool_iff. apply Qlt_le_weak. apply Qnot_le_lt.
  intros H'. apply Qle_bool_iff in H'. congruence.
Qed.

Lemma desc_trans x y z :
  Qle_bool (sd_threshold y) (sd_threshold x) = true ->
  Qle_bool (sd_threshold z) (sd_threshold y) = true ->
  Qle_bool (sd_threshold z) (sd_threshold x) = true.
Proof.
  rewrite !Qle_bool_iff. intros H1 H2. eapply Qle_trans; eassumption.
Qed.

Lemma sort_desc_sorted l :
  StronglySorted
    (fun a b => Qle_bool (sd_threshold b) (sd_threshold a) = true) (sort_desc l).
Proof.
  apply (sort_by_sorted (fun x y => Qle_bool (sd_threshold y) (sd_threshold x))).
  - intros x y. apply desc_total.
  - intros x y z. apply desc_trans.
Qed.

Lemma Qltb_iff x y : Qltb x y = true <-> (x < y)%Q.
Proof.
  unfold Qltb. rewrite negb_true_iff. split.
  - intros H. apply Qnot_le_lt. intros H'. apply Qle_bool_iff in H'. congruence.
  - intros H. destruct (Qle_bool y x) eqn:E; [|reflexivity].
    apply Qle_bool_iff in E. exfalso. apply (Qlt_not_le x y); assumption.
Qed.

(** The snapshot a tick returns is the error snapshot or a built one. *)
Lemma async_update_data_snapshot c now st r :
  fst (async_update_data c now st r) = create_error_data c \/
  exists st', fst (async_update_data c now st r) = build_snapshot c now st'.
Proof.
  unfold async_update_data.
  destruct r as [s|]; [|left; reflexivity].
  destruct (str_in (raw_state s) _); [left; reflexivity|].
  destruct (float_value s) as [p|]; [|left; reflexivity].
  unfold process_power.
  destruct (apply_delays _ _ _ _) as [ns st1].
  destruct (check_idle_delay _ _ _ _) as [ns' st2].
  right. eexists. reflexivity.
Qed.

Lemma reading_cases r : invalid_reading r \/ exists p, valid_reading r p.
Proof.
  destruct r as [s|]; [|left; left; reflexivity].
  destruct (str_in (raw_state s) ["unknown"; "unavailable"]) eqn:Hu.
  - left. right. exists s. auto.
  - destruct (float_value s) as [p|] eqn:Hf.
    + right. exists p, s. auto.
    + left. right. exists s. auto.
Qed.

Lemma async_update_valid c now st r p :
  valid_reading r p -> async_update_data c now st r = process_power c now st p.
Proof.
  intros (s & -> & Hu & Hf). unfold async_update_data. rewrite Hu, Hf. reflexivity.
Qed.

Lemma async_update_invalid c now st r :
  invalid_reading r -> async_update_data c now st r = (create_error_data c, st).
Proof.
  intros [->|(s & -> & [Hu|Hf])]; unfold async_update_data; [reflexivity| |].
  - rewrite Hu. reflexivity.
  - destruct (str_in _ _); [reflexivity|]. rewrite Hf. reflexivity.
Qed.

Lemma run_cons_snd c st now r rest :
  snd (run c st ((now, r) :: rest)) = snd (run c (snd (async_update_data c now st r)) rest).
Proof.
  simpl. destruct (async_update_data c now st r) as [d st1]. simpl.
  destruct (run c st1 rest) as [ds st2]. reflexivity.
Qed.

Lemma first_match_name test l n :
  first_match test l = Some n -> exists s, In s l /\ sd_name s = n.
Proof.
  induction l as [|x rest IH]; simpl; [discriminate|].
  destruct (test x); [intros [= <-]; exists x; auto|].
  intros H. destruct (IH H) as (s & ? & ?). exists s. auto.
Qed.

(** The classifier only returns ["bitti"] when a state has that name. *)
Lemma determine_bitti_has_bitti c power :
  determine_state_by_thresholds c power = "bitti" -> has_bitti_state c = true.
Proof.
  unfold determine_state_by_thresholds.
  pose proof (split_by_comparison_fst (states_config c)) as Hf.
  pose proof (split_by_comparison_snd (states_config c)) as Hs.
  destruct (split_by_comparison (states_config c)) as [g le]; simpl in Hf, Hs.
  assert (Hname : forall s, In s (states_config c) -> sd_name s = "bitti" ->
                  has_bitti_state c = true).
  { intros s Hin Hn. unfold has_bitti_state. apply existsb_exists.
    exists s. split; [exact Hin|]. rewrite Hn. reflexivity. }
  destruct (first_match _ (sort_desc g)) as [n|] eqn:E1.
  - intros Hnb. destruct (first_match_name _ _ _ E1) as (s & Hin & Hn).
    apply sort_by_In, Hf in Hin as [Hin _]. rewrite Hnb in Hn. eauto.
  - destruct (first_match _ (sort_asc le)) as [n|] eqn:E2.
    + intros Hnb. destruct (first_match_name _ _ _ E2) as (s & Hin & Hn).
      apply sort_by_In, Hs in Hin as [Hin _]. rewrite Hnb in Hn. eauto.
    + destruct (negb _ && _); discriminate.
Qed.

(** * Claims *)

(** ** Scenario A (C1) *)

(** C1 (amended). In scenario A as configured ([run] > 50 W, [done] < 5 W,
    delays 60/300/600 s, a tick every 10 s), the state becomes [run] at the
    tick 60 s after the first 80 W reading, becomes [done] at the first 2 W
    tick, because the finish state is only recognised under the name
    [bitti], and then stays [done] without ever becoming [idle]. With the
    last state named [bitti] the scenario's timings hold: [run] at 60 s,
    [bitti] 300 s after the first 2 W reading, [idle] 600 s after that. *)
Theorem scenario_a_trace :
  state_trace scenario_a (init_coord 0) scenario_a_ticks =
    (repeat "idle" 6 ++ repeat "run" 2 ++ repeat "done" 92)%list /\
  state_trace scenario_a_bitti (init_coord 0) scenario_a_ticks =
    (repeat "idle" 6 ++ repeat "run" 32 ++ repeat "bitti" 60 ++ repeat "idle" 2)%list.
Proof. split; vm_compute; reflexivity. Qed.

(** C1 fails as stated: the state is already [done] at the first 2 W tick
    (80 s), not about 300 s later, and it is still [done], not [idle], at
    the last tick. *)
Lemma scenario_a_never_idle :
  nth 8 (state_trace scenario_a (init_coord 0) scenario_a_ticks) "" = "done" /\
  last (state_trace scenario_a (init_coord 0) scenario_a_ticks) "" = "done".
Proof. split; vm_compute; reflexivity. Qed.

(** ** ThresholdClassifier (C5, C8) *)

(** C5 (amended). When no [greater] rule and no [less] rule is satisfied by
    the reading, the classifier returns ["idle"] if no configured state is
    named [bitti] and the reading is below 1 W, and ["unknown"] otherwise;
    for an empty state list it returns ["idle"] below 1 W and ["unknown"] at
    or above 1 W. *)
Theorem classifier_no_match :
  (forall c power,
     (forall s, In s (states_config c) -> sd_comparison s = COMPARISON_GREATER ->
                greater_matches power s = false) ->
     (forall s, In s (states_config c) -> sd_comparison s = COMPARISON_LESS ->
                less_matches power s = false) ->
     determine_state_by_thresholds c power =
       if negb (has_bitti_state c) && Qltb power 1 then "idle" else "unknown") /\
  (forall ad fd id si power,
     determine_state_by_thresholds (mk_config [] ad fd id si) power =
       if Qltb power 1 then "idle" else "unknown").
Proof.
  split.
  - intros c power Hg Hl. unfold determine_state_by_thresholds.
    pose proof (split_by_comparison_fst (states_config c)) as Hf.
    pose proof (split_by_comparison_snd (states_config c)) as Hs.
    destruct (split_by_comparison (states_config c)) as [g le]; simpl in Hf, Hs.
    replace (first_match (greater_matches power) (sort_desc g)) with (@None string).
    2:{ symmetry. apply first_match_None. intros s Hin.
        apply sort_by_In, Hf in Hin as [Hin Hc]. apply Hg; assumption. }
    replace (first_match (less_matches power) (sort_asc le)) with (@None string).
    2:{ symmetry. apply first_match_None. intros s Hin.
        apply sort_by_In, Hs in Hin as [Hin Hc]. apply Hl; assumption. }
    reflexivity.
  - intros. reflexivity.
Qed.

Lemma classifier_no_match_witness :
  determine_state_by_thresholds scenario_a 20%Q = "unknown".
Proof.
  rewrite (proj1 classifier_no_match scenario_a 20%Q).
  - vm_compute. reflexivity.
  - intros s Hin Hc. simpl in Hin.
    destruct Hin as [<-|[<-|[]]];
      first [vm_compute; reflexivity | vm_compute in Hc; discriminate].
  - intros s Hin Hc. simpl in Hin.
    destruct Hin as [<-|[<-|[]]];
      first [vm_compute; reflexivity | vm_compute in Hc; discriminate].
Defined.

(** C5 fails as stated: with no configured state, a 0 W reading is
    classified ["idle"], not ["unknown"]. *)
Lemma classifier_empty_zero_idle :
  determine_state_by_thresholds (mk_config [] 60 300 600 10) 0%Q = "idle".
Proof. vm_compute. reflexivity. Qed.

(** C8. A reading equal to a rule's threshold satisfies neither its
    [greater] nor its [less] comparison; and when some [greater] rule is
    satisfied, the classifier returns the name of a satisfied [greater] rule
    whose threshold is the highest among the satisfied [greater] rules, so
    [greater] rules take priority over every [less] rule. *)
Theorem classifier_greater_priority :
  (forall power s, sd_threshold s == power ->
     greater_matches power s = false /\ less_matches power s = false) /\
  (forall c power s0,
     In s0 (states_config c) -> sd_comparison s0 = COMPARISON_GREATER ->
     greater_matches power s0 = true ->
     exists s, In s (states_config c) /\ sd_comparison s = COMPARISON_GREATER /\
       greater_matches power s = true /\
       determine_state_by_thresholds c power = sd_name s /\
       forall s', In s' (states_config c) -> sd_comparison s' = COMPARISON_GREATER ->
         greater_matches power s' = true -> (sd_threshold s' <= sd_threshold s)%Q).
Proof.
  split.
  - intros power s Heq. unfold greater_matches, less_matches.
    split; apply not_true_iff_false; rewrite Qltb_iff; rewrite Heq;
      apply Qlt_irrefl.
  - intros c power s0 Hin0 Hc0 Hm0. unfold determine_state_by_thresholds.
    pose proof (split_by_comparison_fst (states_config c)) as Hf.
    destruct (split_by_comparison (states_config c)) as [g le]; simpl in Hf.
    destruct (first_match (greater_matches power) (sort_desc g)) as [n|] eqn:E.
    + destruct (first_match_Some_sorted _ _ _ _ (sort_desc_sorted g) E)
        as (s & Hin & Hts & Hn & Hmax).
      pose proof Hin as Hin'. apply sort_by_In, Hf in Hin' as [Hin' Hc].
      exists s. repeat split; auto.
      intros s' Hs' Hc' Hm'.
      assert (Hs'' : In s' (sort_desc g)) by (apply sort_by_In, Hf; auto).
      destruct (Hmax s' Hs'' Hm') as [->|Hle].
      * apply Qle_refl.
      * apply Qle_bool_iff. exact Hle.
    + exfalso. apply first_match_None with (s := s0) in E.
      * congruence.
      * apply sort_by_In, Hf. auto.
Qed.

Lemma classifier_greater_priority_witness :
  exists s, In s (states_config scenario_a) /\
    determine_state_by_thresholds scenario_a 80%Q = sd_name s.
Proof.
  destruct (proj2 classifier_greater_priority scenario_a 80%Q
              (mk_state_def "run" 50 COMPARISON_GREATER "mdi:play"))
    as (s & Hin & _ & _ & Hd & _).
  - left. reflexivity.
  - reflexivity.
  - vm_compute. reflexivity.
  - exists s. split; assumption.
Defined.

(** ** Unavailable readings (C9) and the status sensor (C10) *)

(** C9 (amended). A missing reading, one whose state is ["unknown"] or
    ["unavailable"], or one [float()] rejects makes the tick return the
    error snapshot ([current_power] 0.0, [current_state] ["error"],
    [is_active] false, [cycle_duration] 0) and leave every attribute of the
    coordinator (state, timers, cycle start, last power) unchanged; nothing
    is raised and the next tick reads the sensor again. *)
Theorem invalid_reading_error_snapshot c now st r :
  invalid_reading r ->
  async_update_data c now st r = (create_error_data c, st) /\
  dict_get (create_error_data c) "current_power" = Some (PyFloat 0%Q) /\
  dict_get (create_error_data c) "current_state" = Some (PyStr "error") /\
  dict_get (create_error_data c) "is_active" = Some (PyBool false) /\
  dict_get (create_error_data c) "cycle_duration" = Some (PyInt 0).
Proof.
  intros [->|(s & -> & [Hu|Hf])]; unfold async_update_data.
  - repeat split.
  - rewrite Hu. repeat split.
  - destruct (str_in (raw_state s) _); [repeat split|].
    rewrite Hf. repeat split.
Qed.

Lemma invalid_reading_error_snapshot_witness :
  async_update_data scenario_a (sec 5) (init_coord 0)
    (Some (mk_sensor_state "unavailable" None)) =
    (create_error_data scenario_a, init_coord 0).
Proof.
  apply (invalid_reading_error_snapshot scenario_a (sec 5) (init_coord 0)).
  right. eexists. split; [reflexivity|]. left. vm_compute. reflexivity.
Defined.

(** C9 fails as stated: the error snapshot does not show an idle state; its
    [current_state] is ["error"], which also makes every entity unavailable. *)
Lemma invalid_reading_shows_error :
  dict_get (fst (async_update_data scenario_a 0 (init_coord 0) None))
    "current_state" = Some (PyStr "error") /\
  entity_available true (fst (async_update_data scenario_a 0 (init_coord 0) None))
    = false.
Proof. split; vm_compute; reflexivity. Qed.

(** C10. Every snapshot the coordinator returns, normal or error, lacks the
    key ["state"] (the state is published as ["current_state"]), so the
    status sensor's [native_value] is ["unknown"]. *)
Theorem status_sensor_always_unknown c now st r :
  status_native_value (fst (async_update_data c now st r)) = PyStr "unknown".
Proof.
  destruct (async_update_data_snapshot c now st r) as [->|[st' ->]];
    reflexivity.
Qed.

(** ** Unknown readings in an active state (C6) *)

(** C6 (amended). In an active state (any name other than ["idle"],
    ["bitti"], ["unknown"]), a valid reading classified ["unknown"] leaves the
    state, its start time, the cycle start and the active timer unchanged,
    and clears the finished timer and the [bitti] start time; so an
    ["unknown"] classification never moves the coordinator out of an active
    state. *)
Theorem active_unknown_holds c now st r p :
  valid_reading r p -> is_active_name (current_state st) = true ->
  determine_state_by_thresholds c p = "unknown" ->
  let st' := snd (async_update_data c now st r) in
  current_state st' = current_state st /\
  state_start_time st' = state_start_time st /\
  cycle_start_time st' = cycle_start_time st /\
  active_timer_start st' = active_timer_start st /\
  finished_timer_start st' = None /\ bitti_start_time st' = None.
Proof.
  intros Hv Ha Hd. rewrite (async_update_valid _ _ _ _ _ Hv).
  destruct (is_active_name_spec _ Ha) as (Hi & Hb & Hu).
  destruct st as [pw cur sst cst ats fts bst]; simpl in *.
  unfold process_power, apply_delays, check_idle_delay. rewrite Hd. simpl.
  rewrite Hi, Ha, andb_false_r. simpl. rewrite Hb. simpl.
  rewrite str_eqb_refl. simpl. repeat split.
Qed.

Lemma active_unknown_holds_witness :
  current_state (snd (async_update_data scenario_a_bitti (sec 80)
    (mk_coord 80%Q "run" (sec 60) (Some (sec 60)) None (Some (sec 70)) None)
    (numeric 20%Q))) = "run".
Proof.
  apply (active_unknown_holds scenario_a_bitti (sec 80)
    (mk_coord 80%Q "run" (sec 60) (Some (sec 60)) None (Some (sec 70)) None)
    (numeric 20%Q) 20%Q).
  - exists (mk_sensor_state "number" (Some 20%Q)). repeat split.
  - reflexivity.
  - vm_compute. reflexivity.
Defined.

(** Ticks that bring [scenario_a_bitti] into [run] (80 W from 0 s to 60 s)
    and then start the finished timer (2 W at 70 s). *)
Definition run_then_low : list (Z * reading) :=
  (ticks_from 0 7 80 ++ ticks_from 70 1 2)%list.

(** C6 fails as stated: in a reachable [run] state whose finished timer is
    running, a 20 W reading (classified ["unknown"]) clears that timer. *)
Lemma active_unknown_clears_finished_timer :
  let st := snd (run scenario_a_bitti (init_coord 0) run_then_low) in
  let st' := snd (async_update_data scenario_a_bitti (sec 80) st (numeric 20%Q)) in
  current_state st = "run" /\ finished_timer_start st = Some (sec 70) /\
  determine_state_by_thresholds scenario_a_bitti 20%Q = "unknown" /\
  current_state st' = "run" /\ finished_timer_start st' = None.
Proof. vm_compute. repeat split. Qed.

(** ** The finish state [bitti] (C7) *)

Lemma bitti_step c now st r p :
  valid_reading r p -> current_state st = "bitti" ->
  let t0 := match bitti_start_time st with Some t => t | None => now end in
  let st' := snd (async_update_data c now st r) in
  current_state st' =
    (if Z.leb (idle_delay c) (seconds_since t0 now) then "idle" else "bitti") /\
  bitti_start_time st' =
    (if Z.leb (idle_delay c) (seconds_since t0 now) then None else Some t0).
Proof.
  intros Hv Hb. rewrite (async_update_valid _ _ _ _ _ Hv).
  destruct st as [pw cur sst cst ats fts bst]; simpl in Hb; subst cur.
  unfold process_power, apply_delays, check_idle_delay; simpl.
  destruct (Z.leb _ _); simpl; split; reflexivity.
Qed.

Lemma bitti_hold_run c ticks st t0 :
  current_state st = "bitti" -> bitti_start_time st = Some t0 ->
  (forall t r, In (t, r) ticks -> seconds_since t0 t < idle_delay c) ->
  Forall (fun s => s = "bitti") (state_trace c st ticks) /\
  current_state (snd (run c st ticks)) = "bitti" /\
  bitti_start_time (snd (run c st ticks)) = Some t0.
Proof.
  revert st. induction ticks as [|[t r] rest IH]; intros st Hc Hb Hlt.
  - simpl. repeat split; auto.
  - assert (Hstep : current_state (snd (async_update_data c t st r)) = "bitti" /\
                    bitti_start_time (snd (async_update_data c t st r)) = Some t0).
    { destruct (reading_cases r) as [Hi|[p Hv]].
      - rewrite (async_update_invalid _ _ _ _ Hi). simpl. auto.
      - destruct (bitti_step c t st r p Hv Hc) as [H1 H2]. simpl in H1, H2.
        rewrite Hb in H1, H2.
        assert (Hf : Z.leb (idle_delay c) (seconds_since t0 t) = false).
        { apply Z.leb_gt. apply (Hlt t r). left. reflexivity. }
        rewrite Hf in H1, H2. auto. }
    destruct Hstep as [Hc' Hb'].
    destruct (IH _ Hc' Hb') as (Hall & Hc2 & Hb2).
    { intros t' r' Hin. apply (Hlt t' r'). right. exact Hin. }
    rewrite run_cons_snd. simpl. repeat split; auto.
Qed.

Ltac split_eqbs :=
  repeat match goal with
  | |- context [String.eqb ?a ?b] =>
      let E := fresh "E" in
      destruct (String.eqb a b) eqn:E;
      [apply String.eqb_eq in E; try subst a; try subst b|]
  | |- context [Z.leb ?a ?b] => destruct (Z.leb a b)
  | |- context [match ?o with Some _ => _ | None => _ end] => destruct o
  end.

Ltac proj_simpl :=
  cbn [fst snd current_state current_power state_start_time cycle_start_time
       active_timer_start finished_timer_start bitti_start_time
       set_active_timer set_finished_timer set_bitti_start set_power] in *.

Lemma apply_delays_frame c now st ts :
  current_state (snd (apply_delays c now st ts)) = current_state st /\
  state_start_time (snd (apply_delays c now st ts)) = state_start_time st /\
  cycle_start_time (snd (apply_delays c now st ts)) = cycle_start_time st.
Proof.
  unfold apply_delays.
  destruct (String.eqb (current_state st) "idle");
    [destruct (_ && _); [destruct (Z.leb _ _)|]
    |destruct (is_active_name _); [destruct (_ && _); [destruct (Z.leb _ _)|]|]];
    proj_simpl; repeat split.
Qed.

Lemma check_idle_delay_frame c now st ps :
  current_state (snd (check_idle_delay c now st ps)) = current_state st /\
  state_start_time (snd (check_idle_delay c now st ps)) = state_start_time st /\
  cycle_start_time (snd (check_idle_delay c now st ps)) = cycle_start_time st /\
  active_timer_start (snd (check_idle_delay c now st ps)) = active_timer_start st /\
  finished_timer_start (snd (check_idle_delay c now st ps)) = finished_timer_start st.
Proof.
  unfold check_idle_delay.
  destruct (String.eqb (current_state st) "bitti");
    [destruct (Z.leb _ _)|destruct (negb _)]; proj_simpl; repeat split.
Qed.

(** The attributes after a tick, read off the two delay steps. *)
Lemma process_power_final c now st p ns st1 ns' st2 :
  apply_delays c now (set_power st p) (determine_state_by_thresholds c p) = (ns, st1) ->
  check_idle_delay c now st1 ns = (ns', st2) ->
  let st3 := snd (process_power c now st p) in
  current_state st3 = ns' /\
  bitti_start_time st3 = bitti_start_time st2 /\
  active_timer_start st3 = active_timer_start st2 /\
  finished_timer_start st3 = finished_timer_start st2 /\
  cycle_start_time st3 =
    (if String.eqb ns' (current_state st)
     then cycle_start_time st
     else cycle_start_time (on_state_change now st2 ns')).
Proof.
  intros Ead Eci st3. subst st3. unfold process_power. rewrite Ead, Eci.
  pose proof (apply_delays_frame c now (set_power st p) (determine_state_by_thresholds c p))
    as (Hf1 & _ & Hc1).
  rewrite Ead in Hf1, Hc1. proj_simpl.
  pose proof (check_idle_delay_frame c now st1 ns) as (Hf2 & _ & Hc2 & _ & _).
  rewrite Eci in Hf2, Hc2. proj_simpl.
  rewrite Hf2, Hf1.
  destruct (String.eqb ns' (current_state st)) eqn:E; proj_simpl.
  - apply String.eqb_eq in E. repeat split; congruence.
  - unfold on_state_change. proj_simpl. repeat split.
Qed.

Lemma apply_delays_active_bitti c now st ts :
  is_active_name (current_state st) = true ->
  (String.eqb ts "bitti" = true -> has_bitti_state c = true) ->
  fst (apply_delays c now st ts) = "bitti" ->
  bitti_start_time (snd (apply_delays c now st ts)) = Some now.
Proof.
  intros Ha Hh. destruct (is_active_name_spec _ Ha) as (Hi & Hb & _).
  unfold apply_delays. cbv zeta. rewrite Hi, Ha.
  destruct (has_bitti_state c && String.eqb ts "bitti") eqn:E.
  - destruct (Z.leb _ _); proj_simpl; intros H; [reflexivity|].
    rewrite H, str_eqb_refl in Hb. discriminate.
  - destruct (String.eqb ts "unknown"); proj_simpl; intros H.
    + rewrite H, str_eqb_refl in Hb. discriminate.
    + subst ts. rewrite Hh, str_eqb_refl in E by apply str_eqb_refl.
      discriminate.
Qed.

Lemma apply_delays_idle_bitti_start c now st ts :
  String.eqb (current_state st) "idle" = true ->
  bitti_start_time (snd (apply_delays c now st ts)) = bitti_start_time st.
Proof.
  intros Hi. unfold apply_delays. cbv zeta. rewrite Hi.
  destruct (_ && _); [destruct (Z.leb _ _)|]; proj_simpl; reflexivity.
Qed.

Lemma check_idle_delay_to_bitti c now st ns :
  String.eqb (current_state st) "bitti" = false ->
  fst (check_idle_delay c now st ns) = "bitti" ->
  ns = "bitti" /\ bitti_start_time (snd (check_idle_delay c now st ns)) = bitti_start_time st.
Proof.
  intros Hb. unfold check_idle_delay. rewrite Hb.
  destruct (String.eqb ns "bitti") eqn:E; cbn [negb]; proj_simpl; intros H.
  - apply String.eqb_eq in E. auto.
  - subst ns. rewrite str_eqb_refl in E. discriminate.
Qed.

(** A tick that ends in [bitti] from a state other than [bitti]: the
    [bitti] start time after it is the one [_apply_delays] left. *)
Lemma tick_to_bitti c now st r p :
  valid_reading r p -> String.eqb (current_state st) "bitti" = false ->
  current_state (snd (async_update_data c now st r)) = "bitti" ->
  fst (apply_delays c now (set_power st p) (determine_state_by_thresholds c p)) = "bitti" /\
  bitti_start_time (snd (async_update_data c now st r)) =
    bitti_start_time (snd (apply_delays c now (set_power st p)
                             (determine_state_by_thresholds c p))).
Proof.
  intros Hv Hnb. rewrite (async_update_valid _ _ _ _ _ Hv).
  destruct (apply_delays c now (set_power st p) (determine_state_by_thresholds c p))
    as [ns st1] eqn:Ead.
  destruct (check_idle_delay c now st1 ns) as [ns' st2] eqn:Eci.
  destruct (process_power_final c now st p ns st1 ns' st2 Ead Eci) as (Hs & Hb3 & _).
  pose proof (apply_delays_frame c now (set_power st p) (determine_state_by_thresholds c p))
    as (Hf1 & _ & _). rewrite Ead in Hf1. proj_simpl.
  intros Hfin. rewrite Hs in Hfin. rewrite Hfin in Eci.
  assert (Hnb1 : String.eqb (current_state st1) "bitti" = false) by (rewrite Hf1; exact Hnb).
  pose proof (check_idle_delay_to_bitti c now st1 ns Hnb1) as Hci.
  rewrite Eci in Hci. proj_simpl. destruct (Hci eq_refl) as [-> Hbs].
  split; [reflexivity|]. rewrite Hb3, Hbs. reflexivity.
Qed.

(** C7 (code_bug). With a 2 W standby draw ([scenario_a_bitti]) the
    coordinator enters [bitti] straight from ["idle"] at 60 s. On that path
    [_apply_delays] never sets [bitti_start_time]; the path from an active
    state into [bitti] does. The start time is only set at the next tick,
    here at 660 s, 600 s ([idle_delay]) after entering [bitti]. So at that
    tick the state is still [bitti], where the claim says it becomes
    ["idle"]. *)
Lemma bitti_from_idle_late :
  state_trace scenario_a_bitti (init_coord 0)
    (ticks_from 0 7 2 ++ [(sec 660, numeric 2%Q)])%list =
    (repeat "idle" 6 ++ ["bitti"; "bitti"])%list.
Proof. vm_compute. reflexivity. Qed.

(** ** Leaving [idle] (C4) *)

Lemma check_idle_delay_not_bitti c now st ns :
  String.eqb (current_state st) "bitti" = false ->
  fst (check_idle_delay c now st ns) = ns.
Proof.
  intros Hb. unfold check_idle_delay. rewrite Hb.
  destruct (negb _); reflexivity.
Qed.

(** One valid tick in ["idle"]: the branch of [_apply_delays] taken and
    what [_check_idle_delay] then leaves. *)
Lemma idle_tick c now st r p :
  valid_reading r p -> current_state st = "idle" ->
  let ts := determine_state_by_thresholds c p in
  let st' := snd (async_update_data c now st r) in
  if String.eqb ts "idle" || String.eqb ts "unknown" then
    current_state st' = "idle" /\ active_timer_start st' = None
  else
    let t := match active_timer_start st with Some t0 => t0 | None => now end in
    if Z.leb (active_delay c) (seconds_since t now) then
      current_state st' = ts /\ active_timer_start st' = None
    else
      current_state st' = "idle" /\ active_timer_start st' = Some t.
Proof.
  intros Hv Hi ts st'. subst st'. rewrite (async_update_valid _ _ _ _ _ Hv).
  destruct (apply_delays c now (set_power st p) (determine_state_by_thresholds c p))
    as [ns st1] eqn:Ead.
  destruct (check_idle_delay c now st1 ns) as [ns' st2] eqn:Eci.
  destruct (process_power_final c now st p ns st1 ns' st2 Ead Eci) as (Hs & _ & Hat & _).
  rewrite Hs, Hat.
  pose proof (apply_delays_frame c now (set_power st p) (determine_state_by_thresholds c p))
    as (Hf1 & _ & _). rewrite Ead in Hf1. proj_simpl.
  pose proof (check_idle_delay_frame c now st1 ns) as (_ & _ & _ & Hat2 & _).
  pose proof (check_idle_delay_not_bitti c now st1 ns) as Hns.
  rewrite Eci in Hat2, Hns. proj_simpl. rewrite Hat2.
  rewrite Hns in * by (rewrite Hf1, Hi; reflexivity). clear Hns.
  unfold apply_delays in Ead. cbv zeta in Ead. proj_simpl.
  rewrite Hi, str_eqb_refl in Ead. fold ts in Ead |- *.
  destruct (String.eqb ts "idle") eqn:E1, (String.eqb ts "unknown") eqn:E2;
    cbn [negb andb orb] in Ead |- *;
    try (injection Ead as <- <-; proj_simpl; split; reflexivity).
  destruct (active_timer_start st) as [t0|]; proj_simpl;
    destruct (Z.leb _ _); injection Ead as <- <-; proj_simpl; split; reflexivity.
Qed.

Lemma numeric_valid p : valid_reading (numeric p) p.
Proof. exists (mk_sensor_state "number" (Some p)). repeat split. Qed.

Lemma run_app_snd c st l1 l2 :
  snd (run c st (l1 ++ l2)) = snd (run c (snd (run c st l1)) l2).
Proof.
  revert st. induction l1 as [|[t r] rest IH]; intros st; [reflexivity|].
  rewrite <- app_comm_cons, !run_cons_snd. apply IH.
Qed.

Lemma state_trace_app c st l1 l2 :
  state_trace c st (l1 ++ l2) =
    (state_trace c st l1 ++ state_trace c (snd (run c st l1)) l2)%list.
Proof.
  revert st. induction l1 as [|[t r] rest IH]; intros st; [reflexivity|].
  rewrite run_cons_snd, <- app_comm_cons. cbn [state_trace]. rewrite IH. reflexivity.
Qed.

(** While the state stays ["idle"], the active timer is unset or holds the
    time of the first tick of the current unbroken run of readings that
    pass the idle guard. *)
Lemma idle_streak c st pre :
  current_state st = "idle" -> active_timer_start st = None ->
  Forall (fun s => s = "idle") (state_trace c st (numeric_ticks pre)) ->
  let st' := snd (run c st (numeric_ticks pre)) in
  current_state st' = "idle" /\
  (active_timer_start st' = None \/
   exists pre1 t1 q1 run1,
     pre = (pre1 ++ (t1, q1) :: run1)%list /\ active_timer_start st' = Some t1 /\
     forall t q, In (t, q) ((t1, q1) :: run1) -> idle_guard c q = true).
Proof.
  intros Hi Ha. induction pre as [|[t q] pre IH] using rev_ind; intros Hall.
  - cbv zeta. simpl. auto.
  - unfold numeric_ticks in *. rewrite map_app in Hall |- *.
    rewrite state_trace_app in Hall. apply Forall_app in Hall as [Hpre Hlast].
    destruct (IH Hpre) as [Hi' Hinv]. cbv zeta in *.
    rewrite run_app_snd. cbn [map fst snd] in Hlast |- *.
    set (st0 := snd (run c st (map (fun tq => (fst tq, numeric (snd tq))) pre))) in *.
    rewrite run_cons_snd. cbn [run snd].
    cbn [state_trace] in Hlast. inversion Hlast as [|? ? Hidle _]; subst.
    change (current_state (snd (async_update_data c t st0 (numeric q))) = "idle") in Hidle.
    pose proof (idle_tick c t st0 (numeric q) q (numeric_valid q) Hi') as Ht.
    cbv zeta in Ht. unfold idle_guard.
    split; [exact Hidle|].
    destruct (String.eqb (determine_state_by_thresholds c q) "idle" ||
              String.eqb (determine_state_by_thresholds c q) "unknown") eqn:Eg.
    + left. apply Ht.
    + destruct (Z.leb _ _).
      * exfalso. destruct Ht as [Hs _]. rewrite Hs in Hidle.
        apply orb_false_iff in Eg as [E1 _]. rewrite Hidle, str_eqb_refl in E1.
        discriminate.
      * right. destruct Ht as [_ Hat].
        assert (Hq : negb (String.eqb (determine_state_by_thresholds c q) "idle") &&
                     negb (String.eqb (determine_state_by_thresholds c q) "unknown") = true).
        { apply orb_false_iff in Eg as [E1 E2]. rewrite E1, E2. reflexivity. }
        destruct Hinv as [Hn|(pre1 & t1 & q1 & run1 & Hpre1 & Hs1 & Hq1)].
        -- rewrite Hn in Hat. exists pre, t, q, []. repeat split; [exact Hat|].
           intros t' q' [Heq|[]]. injection Heq as <- <-. exact Hq.
        -- rewrite Hs1 in Hat. exists pre1, t1, q1, (run1 ++ [(t, q)])%list.
           repeat split; [rewrite Hpre1; rewrite <- app_assoc; reflexivity|exact Hat|].
           intros t' q' Hin. rewrite app_comm_cons in Hin. apply in_app_or in Hin as [Hin|[Heq|[]]].
           ++ exact (Hq1 _ _ Hin).
           ++ injection Heq as <- <-. exact Hq.
Qed.

(** C4 (amended). On a tick with a valid reading while the state is
    ["idle"], let [ts] be the reading's classification, and let it not be
    [bitti]. If [ts] is ["idle"] or ["unknown"], the active timer is cleared
    and the state stays ["idle"]. Otherwise [ts] is a configured state
    name, not necessarily the first one. The active timer is then started
    at this tick if unset, or kept. If at least [active_delay] seconds have
    passed since the timer started, the state becomes [ts] and the timer is
    cleared; if not, the state stays ["idle"]. Hence, over valid readings
    none of which is classified [bitti], from ["idle"] with no active timer,
    the state leaves ["idle"] only at a tick that ends an unbroken run of
    readings classified neither ["idle"] nor ["unknown"], whose first tick
    lies at least [active_delay] seconds before it, and it goes to that
    tick's classification. *)
Theorem idle_exit_rule :
  (forall c now st r p,
     valid_reading r p -> current_state st = "idle" ->
     determine_state_by_thresholds c p <> "bitti" ->
     let ts := determine_state_by_thresholds c p in
     let st' := snd (async_update_data c now st r) in
     if String.eqb ts "idle" || String.eqb ts "unknown" then
       current_state st' = "idle" /\ active_timer_start st' = None
     else
       let t := match active_timer_start st with Some t0 => t0 | None => now end in
       if Z.leb (active_delay c) (seconds_since t now) then
         current_state st' = ts /\ active_timer_start st' = None
       else
         current_state st' = "idle" /\ active_timer_start st' = Some t) /\
  (forall c st pre now p,
     current_state st = "idle" -> active_timer_start st = None ->
     (forall t q, In (t, q) (pre ++ [(now, p)]) ->
        determine_state_by_thresholds c q <> "bitti") ->
     Forall (fun s => s = "idle") (state_trace c st (numeric_ticks pre)) ->
     current_state (snd (run c st (numeric_ticks (pre ++ [(now, p)])))) <> "idle" ->
     current_state (snd (run c st (numeric_ticks (pre ++ [(now, p)])))) =
       determine_state_by_thresholds c p /\
     exists pre1 t1 q1 run1,
       (pre ++ [(now, p)] = pre1 ++ (t1, q1) :: run1)%list /\
       (forall t q, In (t, q) ((t1, q1) :: run1) -> idle_guard c q = true) /\
       active_delay c <= seconds_since t1 now).
Proof.
  split.
  - intros c now st r p Hv Hi _. exact (idle_tick c now st r p Hv Hi).
  - intros c st pre now p Hi Ha _ Hall Hout.
    destruct (idle_streak c st pre Hi Ha Hall) as [Hi' Hinv]. cbv zeta in Hi', Hinv.
    unfold numeric_ticks in *. rewrite map_app, run_app_snd in Hout |- *.
    set (st0 := snd (run c st (map (fun tq => (fst tq, numeric (snd tq))) pre))) in *.
    cbn [map fst snd] in Hout |- *. rewrite run_cons_snd in Hout |- *. cbn [run snd] in Hout |- *.
    pose proof (idle_tick c now st0 (numeric p) p (numeric_valid p) Hi') as Ht.
    cbv zeta in Ht. unfold idle_guard.
    destruct (String.eqb (determine_state_by_thresholds c p) "idle" ||
              String.eqb (determine_state_by_thresholds c p) "unknown") eqn:Eg;
      [destruct Ht as [Hs _]; contradiction|].
    destruct (Z.leb _ _) eqn:Ed; [|destruct Ht as [Hs _]; contradiction].
    destruct Ht as [Hs _]. split; [exact Hs|].
    apply Z.leb_le in Ed.
    assert (Hq : negb (String.eqb (determine_state_by_thresholds c p) "idle") &&
                 negb (String.eqb (determine_state_by_thresholds c p) "unknown") = true).
    { apply orb_false_iff in Eg as [E1 E2]. rewrite E1, E2. reflexivity. }
    destruct Hinv as [Hn|(pre1 & t1 & q1 & run1 & Hpre1 & Hs1 & Hq1)].
    + rewrite Hn in Ed. exists pre, now, p, []. repeat split; [|exact Ed].
      intros t' q' [Heq|[]]. injection Heq as <- <-. exact Hq.
    + rewrite Hs1 in Ed. exists pre1, t1, q1, (run1 ++ [(now, p)])%list.
      repeat split; [rewrite Hpre1; rewrite <- app_assoc; reflexivity| |exact Ed].
      intros t' q' Hin. rewrite app_comm_cons in Hin. apply in_app_or in Hin as [Hin|[Heq|[]]].
      * exact (Hq1 _ _ Hin).
      * injection Heq as <- <-. exact Hq.
Qed.

Lemma idle_exit_rule_witness :
  current_state (snd (async_update_data scenario_a (sec 60)
    (mk_coord 80%Q "idle" 0 None (Some 0) None None) (numeric 80%Q))) = "run" /\
  current_state (snd (run scenario_a (init_coord 0)
    (numeric_ticks (map (fun k => (sec k, 80%Q)) [0; 10; 20; 30; 40; 50] ++
                    [(sec 60, 80%Q)])))) =
    determine_state_by_thresholds scenario_a 80%Q.
Proof.
  split.
  - pose proof (proj1 idle_exit_rule scenario_a (sec 60)
      (mk_coord 80%Q "idle" 0 None (Some 0) None None) (numeric 80%Q) 80%Q) as H.
    cbv zeta in H.
    assert (Hd : determine_state_by_thresholds scenario_a 80%Q = "run")
      by (vm_compute; reflexivity).
    rewrite Hd in H. cbn [String.eqb orb active_timer_start] in H.
    vm_compute in H. apply H.
    + exact (numeric_valid 80%Q).
    + reflexivity.
    + discriminate.
  - apply (proj2 idle_exit_rule).
    + reflexivity.
    + reflexivity.
    + intros t q Hin. simpl in Hin.
      repeat (destruct Hin as [Hin|Hin]; [injection Hin as <- <-; vm_compute; discriminate|]).
      contradiction.
    + vm_compute. repeat constructor.
    + vm_compute. discriminate.
Defined.

(** C4 fails as stated: a standby draw of 2 W, classified as the last
    state [done] rather than the first state [run], also runs the active
    timer and takes the coordinator out of ["idle"], into [done]. *)
Lemma idle_exit_to_non_start_state :
  state_trace scenario_a (init_coord 0) (ticks_from 0 7 2) =
    (repeat "idle" 6 ++ ["done"])%list.
Proof. vm_compute. reflexivity. Qed.

(** ** Cycle duration (C3) *)

Lemma process_power_snapshot c now st p :
  fst (process_power c now st p) = build_snapshot c now (snd (process_power c now st p)).
Proof.
  unfold process_power.
  destruct (apply_delays _ _ _ _) as [ns st1].
  destruct (check_idle_delay _ _ _ _) as [ns' st2]. reflexivity.
Qed.

(** The cycle start after a valid tick, by old and new state. *)
Lemma tick_cycle_start c now st r p :
  valid_reading r p ->
  let st' := snd (async_update_data c now st r) in
  cycle_start_time st' =
    if String.eqb (current_state st') (current_state st) then cycle_start_time st
    else if String.eqb (current_state st) "idle" && is_active_name (current_state st')
    then Some now
    else if is_active_name (current_state st) &&
            str_in (current_state st') ["idle"; "bitti"]
    then None
    else cycle_start_time st.
Proof.
  intros Hv st'. subst st'. rewrite (async_update_valid _ _ _ _ _ Hv).
  destruct (apply_delays c now (set_power st p) (determine_state_by_thresholds c p))
    as [ns st1] eqn:Ead.
  destruct (check_idle_delay c now st1 ns) as [ns' st2] eqn:Eci.
  destruct (process_power_final c now st p ns st1 ns' st2 Ead Eci) as (Hs & _ & _ & _ & Hc).
  rewrite Hc, Hs.
  destruct (String.eqb ns' (current_state st)); [reflexivity|].
  pose proof (apply_delays_frame c now (set_power st p) (determine_state_by_thresholds c p))
    as (Hf1 & _ & Hc1). rewrite Ead in Hf1, Hc1. proj_simpl.
  pose proof (check_idle_delay_frame c now st1 ns) as (Hf2 & _ & Hc2 & _ & _).
  rewrite Eci in Hf2, Hc2. proj_simpl.
  unfold on_state_change. proj_simpl. rewrite Hf2, Hf1, Hc2, Hc1.
  destruct (_ && _); [reflexivity|].
  destruct (_ && _); [|reflexivity].
  destruct (cycle_start_time st); reflexivity.
Qed.

Lemma seconds_since_mono t0 now1 now2 :
  now1 <= now2 -> seconds_since t0 now1 <= seconds_since t0 now2.
Proof.
  intros H. unfold seconds_since, usec_per_sec. apply Z.quot_le_mono; lia.
Qed.

(** C3 (amended). The [cycle_duration] of a tick's snapshot is 0 on a tick
    with a rejected reading. On a tick with a valid reading it is computed
    from the new attributes: it is 0 whenever the state is ["idle"],
    ["bitti"] or ["unknown"] (or no cycle start is recorded), and
    [int(now - cycle_start_time)] otherwise, which is also 0 on the tick
    that opens a cycle. A cycle opens ([cycle_start_time = now]) when the
    state moves from ["idle"] to an active name. It closes
    ([cycle_start_time] unset) when the state moves from an active name to
    ["idle"] or ["bitti"]. Over consecutive valid ticks that keep the state
    active, the cycle start is kept and [cycle_duration] never decreases. *)
Theorem cycle_duration_rules :
  (forall c now st r,
     invalid_reading r ->
     dict_get (fst (async_update_data c now st r)) "cycle_duration" = Some (PyInt 0)) /\
  (forall c now st r p,
     valid_reading r p ->
     dict_get (fst (async_update_data c now st r)) "cycle_duration" =
       Some (PyInt (get_cycle_duration now (snd (async_update_data c now st r))))) /\
  (forall now st, is_active_name (current_state st) = false ->
     get_cycle_duration now st = 0) /\
  (forall c now st r p,
     valid_reading r p -> current_state st = "idle" ->
     is_active_name (current_state (snd (async_update_data c now st r))) = true ->
     cycle_start_time (snd (async_update_data c now st r)) = Some now /\
     get_cycle_duration now (snd (async_update_data c now st r)) = 0) /\
  (forall c now st r p,
     valid_reading r p -> is_active_name (current_state st) = true ->
     str_in (current_state (snd (async_update_data c now st r))) ["idle"; "bitti"] = true ->
     cycle_start_time (snd (async_update_data c now st r)) = None) /\
  (forall c now1 now2 st r p,
     valid_reading r p -> now1 <= now2 -> is_active_name (current_state st) = true ->
     is_active_name (current_state (snd (async_update_data c now2 st r))) = true ->
     cycle_start_time (snd (async_update_data c now2 st r)) = cycle_start_time st /\
     get_cycle_duration now1 st <= get_cycle_duration now2 (snd (async_update_data c now2 st r))).
Proof.
  split; [|split; [|split; [|split; [|split]]]].
  - intros c now st r Hi. rewrite (async_update_invalid _ _ _ _ Hi). reflexivity.
  - intros c now st r p Hv. rewrite (async_update_valid _ _ _ _ _ Hv).
    rewrite process_power_snapshot. reflexivity.
  - intros now st Ha. unfold get_cycle_duration. rewrite Ha.
    destruct (cycle_start_time st); reflexivity.
  - intros c now st r p Hv Hi Ha.
    pose proof (tick_cycle_start c now st r p Hv) as Hc. cbv zeta in Hc.
    destruct (is_active_name_spec _ Ha) as (Hi' & _ & _).
    rewrite Hi, Hi', Ha, str_eqb_refl in Hc. cbn [andb] in Hc.
    assert (Hcs : cycle_start_time (snd (async_update_data c now st r)) = Some now)
      by exact Hc.
    split; [exact Hcs|]. unfold get_cycle_duration. rewrite Hcs, Ha.
    unfold seconds_since. rewrite Z.sub_diag. reflexivity.
  - intros c now st r p Hv Ha Hin.
    pose proof (tick_cycle_start c now st r p Hv) as Hc. cbv zeta in Hc.
    destruct (is_active_name_spec _ Ha) as (Hi & Hb & _).
    rewrite Hin, Ha, Hi in Hc. cbn [andb] in Hc.
    destruct (String.eqb (current_state (snd (async_update_data c now st r)))
                (current_state st)) eqn:E; [|exact Hc].
    apply String.eqb_eq in E. rewrite E in Hin.
    unfold str_in in Hin. simpl in Hin. rewrite Hi, Hb in Hin. discriminate.
  - intros c now1 now2 st r p Hv Hle Ha Ha'.
    pose proof (tick_cycle_start c now2 st r p Hv) as Hc. cbv zeta in Hc.
    destruct (is_active_name_spec _ Ha) as (Hi & _ & _).
    destruct (is_active_name_spec _ Ha') as (Hi' & Hb' & _).
    rewrite Hi in Hc. cbn [andb] in Hc. rewrite Ha in Hc.
    assert (Hno : str_in (current_state (snd (async_update_data c now2 st r)))
                    ["idle"; "bitti"] = false)
      by (unfold str_in; simpl; rewrite Hi', Hb'; reflexivity).
    rewrite Hno in Hc. cbn [andb] in Hc.
    assert (Hcs : cycle_start_time (snd (async_update_data c now2 st r)) =
                  cycle_start_time st)
      by (destruct (String.eqb _ _); exact Hc).
    split; [exact Hcs|].
    unfold get_cycle_duration. rewrite Hcs, Ha, Ha'.
    destruct (cycle_start_time st); [apply seconds_since_mono; exact Hle|lia].
Qed.

(** The [run] state right after the cycle opened at 60 s. *)
Definition run_opened : coord :=
  mk_coord 80%Q "run" (sec 60) (Some (sec 60)) None None None.

Lemma cycle_duration_rules_witness :
  cycle_start_time (snd (async_update_data scenario_a (sec 60)
    (mk_coord 80%Q "idle" 0 None (Some 0) None None) (numeric 80%Q))) = Some (sec 60) /\
  get_cycle_duration (sec 60) run_opened <=
    get_cycle_duration (sec 70) (snd (async_update_data scenario_a (sec 70) run_opened
                                      (numeric 80%Q))).
Proof.
  split.
  - apply (proj1 (proj2 (proj2 (proj2 cycle_duration_rules))) scenario_a (sec 60)
             (mk_coord 80%Q "idle" 0 None (Some 0) None None) (numeric 80%Q) 80%Q).
    + exists (mk_sensor_state "number" (Some 80%Q)). repeat split.
    + reflexivity.
    + vm_compute. reflexivity.
  - apply (proj2 (proj2 (proj2 (proj2 (proj2 cycle_duration_rules)))) scenario_a
             (sec 60) (sec 70) run_opened (numeric 80%Q) 80%Q).
    + exists (mk_sensor_state "number" (Some 80%Q)). repeat split.
    + vm_compute. discriminate.
    + reflexivity.
    + vm_compute. reflexivity.
Defined.

(** C3 fails as stated: [cycle_duration] is 0 on the tick the state becomes
    [run] (60 s), and it is 0 while the state is [bitti], which is not
    ["idle"]. *)
Lemma cycle_duration_zero_outside_idle :
  let open_tick := async_update_data scenario_a (sec 60)
        (snd (run scenario_a (init_coord 0) (ticks_from 0 6 80))) (numeric 80%Q) in
  let bitti_tick := async_update_data scenario_a_bitti (sec 380)
        (snd (run scenario_a_bitti (init_coord 0)
                (ticks_from 0 8 80 ++ ticks_from 80 30 2)%list)) (numeric 2%Q) in
  current_state (snd open_tick) = "run" /\
  dict_get (fst open_tick) "cycle_duration" = Some (PyInt 0) /\
  current_state (snd bitti_tick) = "bitti" /\
  dict_get (fst bitti_tick) "cycle_duration" = Some (PyInt 0).
Proof. vm_compute. repeat split. Qed.

(** ** Energy of the current cycle (C2) *)

Lemma Qdiv_nonneg x y : (0 <= x)%Q -> (0 < y)%Q -> (0 <= x / y)%Q.
Proof.
  intros Hx Hy. apply Qle_shift_div_l; [exact Hy|].
  rewrite Qmult_0_l. exact Hx.
Qed.

Lemma Qle_plus_nonneg x y : (0 <= y)%Q -> (x <= x + y)%Q.
Proof.
  intros Hy. apply Qle_trans with (x + 0)%Q.
  - rewrite Qplus_0_r. apply Qle_refl.
  - apply Qplus_le_compat; [apply Qle_refl|exact Hy].
Qed.

(** C2 (amended). On each coordinator update, the energy sensor reads
    ["avg_power"] (default 0) and ["state"] from the snapshot. If ["state"]
    is ["running"], it adds [avg_power * (dt / 3600)] Wh, where [dt] is the
    time in seconds since its previous update. If ["state"] is present and
    is neither ["running"] nor ["unknown"], it resets the energy to 0.
    Otherwise (["state"] absent or ["unknown"]) the energy is unchanged.
    With a non-negative [avg_power] and time that does not go backwards,
    the energy therefore never decreases except by a reset to 0. *)
Theorem energy_update_rules :
  (forall now d e a,
     py_number (dict_get_or d "avg_power" (PyFloat 0%Q)) = Some a ->
     let dt := (inject_Z (now - last_update_time e) / inject_Z usec_per_sec)%Q in
     energy_handle_update now d e =
       Some (mk_energy_sensor
         (match dict_get d "state" with
          | Some v =>
              if pyval_is_str v STATE_RUNNING
              then (energy_this_cycle e + a * (dt / 3600))%Q
              else if pyval_is_str v "unknown" then energy_this_cycle e else 0%Q
          | None => energy_this_cycle e
          end) now)) /\
  (forall now d e e' a,
     py_number (dict_get_or d "avg_power" (PyFloat 0%Q)) = Some a ->
     (0 <= a)%Q -> last_update_time e <= now ->
     energy_handle_update now d e = Some e' ->
     energy_this_cycle e' = 0%Q \/ (energy_this_cycle e <= energy_this_cycle e')%Q).
Proof.
  assert (Hrule : forall now d e a,
     py_number (dict_get_or d "avg_power" (PyFloat 0%Q)) = Some a ->
     let dt := (inject_Z (now - last_update_time e) / inject_Z usec_per_sec)%Q in
     energy_handle_update now d e =
       Some (mk_energy_sensor
         (match dict_get d "state" with
          | Some v =>
              if pyval_is_str v STATE_RUNNING
              then (energy_this_cycle e + a * (dt / 3600))%Q
              else if pyval_is_str v "unknown" then energy_this_cycle e else 0%Q
          | None => energy_this_cycle e
          end) now)).
  { intros now d e a Ha dt. unfold energy_handle_update. rewrite Ha.
    unfold dict_get_or. fold dt.
    destruct (dict_get d "state") as [v|]; [|reflexivity].
    destruct (pyval_is_str v STATE_RUNNING); [reflexivity|].
    destruct (pyval_is_str v "unknown"); reflexivity. }
  split; [exact Hrule|].
  intros now d e e' a Ha Ha0 Ht He. rewrite (Hrule now d e a Ha) in He.
  injection He as <-. cbn [energy_this_cycle].
  destruct (dict_get d "state") as [v|]; [|right; apply Qle_refl].
  destruct (pyval_is_str v STATE_RUNNING).
  - right. apply Qle_plus_nonneg. apply Qmult_le_0_compat; [exact Ha0|].
    apply Qdiv_nonneg; [|reflexivity].
    apply Qdiv_nonneg; [|reflexivity].
    change 0%Q with (inject_Z 0). rewrite <- Zle_Qle. lia.
  - destruct (pyval_is_str v "unknown"); [right; apply Qle_refl|left; reflexivity].
Qed.

Lemma energy_update_rules_witness :
  energy_handle_update (sec 70) [("state", PyStr "running"); ("avg_power", PyFloat 36%Q)]
    (mk_energy_sensor 0%Q (sec 60)) =
  Some (mk_energy_sensor (0 + 36 * ((inject_Z (sec 70 - sec 60) /
                                     inject_Z usec_per_sec) / 3600))%Q (sec 70)).
Proof.
  apply (proj1 energy_update_rules (sec 70)
           [("state", PyStr "running"); ("avg_power", PyFloat 36%Q)]
           (mk_energy_sensor 0%Q (sec 60)) 36%Q).
  reflexivity.
Defined.

(** C2 fails as stated: while the coordinator is in [run] at 80 W, a
    coordinator update 10 s later leaves the cycle energy at 0 instead of
    adding 80 * 10 / 3600 Wh. *)
Lemma energy_not_accumulated_in_run :
  let tick := async_update_data scenario_a (sec 70)
                (snd (run scenario_a (init_coord 0) (ticks_from 0 7 80))) (numeric 80%Q) in
  current_state (snd tick) = "run" /\
  energy_handle_update (sec 70) (fst tick) (mk_energy_sensor 0%Q (sec 60)) =
    Some (mk_energy_sensor 0%Q (sec 70)).
Proof. vm_compute. split; reflexivity. Qed.

(** * Further properties of the code *)

(** ** Helpers *)

Lemma determine_range c power :
  let ts := determine_state_by_thresholds c power in
  ts = "idle" \/ ts = "unknown" \/
  exists sd, In sd (states_config c) /\ sd_name sd = ts /\
    (sd_comparison sd = COMPARISON_GREATER \/ sd_comparison sd = COMPARISON_LESS).
Proof.
  cbv zeta. unfold determine_state_by_thresholds.
  pose proof (split_by_comparison_fst (states_config c)) as Hf.
  pose proof (split_by_comparison_snd (states_config c)) as Hs.
  destruct (split_by_comparison (states_config c)) as [g le]; simpl in Hf, Hs.
  destruct (first_match _ (sort_desc g)) as [n|] eqn:E1.
  - destruct (first_match_name _ _ _ E1) as (s & Hin & Hn).
    apply sort_by_In, Hf in Hin as [Hin Hc]. right; right. eauto.
  - destruct (first_match _ (sort_asc le)) as [n|] eqn:E2.
    + destruct (first_match_name _ _ _ E2) as (s & Hin & Hn).
      apply sort_by_In, Hs in Hin as [Hin Hc]. right; right. eauto.
    + destruct (negb _ && _); auto.
Qed.

Ltac is_lit s :=
  lazymatch s with
  | String.String _ _ => idtac
  | String.EmptyString => idtac
  end.

Ltac eqb_lit :=
  repeat match goal with
  | |- context [String.eqb ?a ?b] =>
      is_lit a; is_lit b;
      let v := eval vm_compute in (String.eqb a b) in
      lazymatch v with
      | true => change (String.eqb a b) with true
      | false => change (String.eqb a b) with false
      end
  | H : context [String.eqb ?a ?b] |- _ =>
      is_lit a; is_lit b;
      let v := eval vm_compute in (String.eqb a b) in
      lazymatch v with
      | true => change (String.eqb a b) with true in H
      | false => change (String.eqb a b) with false in H
      end
  end.

Ltac eqb_hyps :=
  repeat match goal with
  | H : String.eqb ?a ?b = _ |- context [String.eqb ?a ?b] => rewrite H
  | |- context [String.eqb ?a ?a] => rewrite str_eqb_refl
  | H : String.eqb ?a ?b = _, H' : context [String.eqb ?a ?b] |- _ =>
      lazymatch type of H' with String.eqb a b = _ => fail | _ => rewrite H in H' end
  end.

Ltac norm :=
  unfold is_active_name, str_in in *;
  cbn [fst snd current_state current_power state_start_time cycle_start_time
       active_timer_start finished_timer_start bitti_start_time
       set_active_timer set_finished_timer set_bitti_start set_power
       andb orb negb existsb str_in is_active_name] in *;
  eqb_lit; eqb_hyps;
  cbn [fst snd current_state current_power state_start_time cycle_start_time
       active_timer_start finished_timer_start bitti_start_time
       andb orb negb existsb] in *.

Ltac split_one :=
  match goal with
  | |- context [String.eqb ?a ?b] =>
      let E := fresh "E" in
      destruct (String.eqb a b) eqn:E;
      [apply String.eqb_eq in E; try subst a; try subst b|]
  | |- context [Z.leb ?a ?b] => destruct (Z.leb a b)
  | |- context [has_bitti_state ?c] => destruct (has_bitti_state c) eqn:?
  | |- context [match ?o with Some _ => _ | None => _ end] => destruct o
  end.

Ltac finish_inv :=
  try (match goal with
       | Hhb : ?a = ?a -> has_bitti_state ?c = true, Eh : has_bitti_state ?c = false |- _ =>
           rewrite (Hhb eq_refl) in Eh; discriminate
       end);
  repeat split; intros; norm; try discriminate; try congruence; try assumption;
  try (left; reflexivity);
  try (apply String.eqb_neq; assumption);
  try (repeat match goal with H : ?x = ?l |- _ => is_var x; subst x end; norm; discriminate);
  try (match goal with Hts : _ \/ _ \/ _ |- _ =>
         destruct Hts as [Hx|[Hx|(sd & Hin & Hn & _)]];
           [first [left; exact Hx | discriminate Hx | subst; norm; discriminate]
           |first [discriminate Hx | subst; norm; discriminate]
           |right; eauto] end).

Lemma process_power_inv c now st p :
  coord_inv c st -> coord_inv c (snd (process_power c now st p)).
Proof.
  pose proof (determine_range c p) as Hts. cbv zeta in Hts.
  pose proof (determine_bitti_has_bitti c p) as Hhb.
  unfold process_power.
  generalize dependent (determine_state_by_thresholds c p). intros ts Hts Hhb.
  destruct st as [pw cur sst cyc at0 ft bt].
  unfold coord_inv, apply_delays, check_idle_delay, on_state_change, set_power.
  norm.
  intros (Hu & Hcfg & Hbt & Hat & Hft & Hcyc).
  destruct (String.eqb cur "idle") eqn:Ei; [|destruct (String.eqb cur "bitti") eqn:Eb].
  - apply String.eqb_eq in Ei. subst cur.
    rewrite Hft by reflexivity. rewrite Hbt by discriminate.
    destruct cyc; [exfalso; assert (false = true) by (apply Hcyc; discriminate); discriminate|].
    repeat (split_one; norm).
    all: finish_inv.
  - apply String.eqb_eq in Eb. subst cur.
    rewrite Hft by reflexivity. rewrite Hat by discriminate.
    destruct cyc; [exfalso; assert (false = true) by (apply Hcyc; discriminate); discriminate|].
    repeat (split_one; norm).
    all: finish_inv.
  - destruct (String.eqb cur "unknown") eqn:Eu;
      [apply String.eqb_eq in Eu; contradiction|].
    rewrite Hat by (apply String.eqb_neq; exact Ei).
    rewrite Hbt by (apply String.eqb_neq; exact Eb).
    norm.
    destruct cyc; [|exfalso; apply (proj2 Hcyc); reflexivity].
    repeat (split_one; norm).
    all: finish_inv.
Qed.

Lemma async_update_inv c now st r :
  coord_inv c st -> coord_inv c (snd (async_update_data c now st r)).
Proof.
  intros H. destruct (reading_cases r) as [Hi|(p & Hv)].
  - rewrite async_update_invalid by exact Hi. exact H.
  - rewrite (async_update_valid _ _ _ _ _ Hv). apply process_power_inv. exact H.
Qed.

Lemma init_coord_inv c t : coord_inv c (init_coord t).
Proof.
  unfold coord_inv, init_coord. cbn [current_state bitti_start_time
    active_timer_start finished_timer_start cycle_start_time].
  repeat split; try (intros H; discriminate H); auto.
  all: intros H; [exfalso; apply H; reflexivity|vm_compute in H; discriminate H].
Qed.

Lemma run_inv c st ticks : coord_inv c st -> coord_inv c (snd (run c st ticks)).
Proof.
  revert st. induction ticks as [|[now r] rest IH]; intros st H; [exact H|].
  rewrite run_cons_snd. apply IH, async_update_inv, H.
Qed.

Lemma reachable_inv c t0 ticks : coord_inv c (snd (run c (init_coord t0) ticks)).
Proof. apply run_inv, init_coord_inv. Qed.

Lemma build_snapshot_is_active c now st :
  dict_get (build_snapshot c now st) "is_active" =
    Some (PyBool (is_active_name (current_state st))).
Proof. reflexivity. Qed.

Lemma build_snapshot_current_state c now st :
  dict_get (build_snapshot c now st) "current_state" = Some (PyStr (current_state st)).
Proof. reflexivity. Qed.

Lemma sort_asc_sorted l :
  StronglySorted
    (fun a b => Qle_bool (sd_threshold a) (sd_threshold b) = true) (sort_asc l).
Proof.
  apply (sort_by_sorted (fun x y => Qle_bool (sd_threshold x) (sd_threshold y))).
  - intros x y. apply desc_total.
  - intros x y z H1 H2. apply Qle_bool_iff. apply Qle_bool_iff in H1, H2.
    eapply Qle_trans; eassumption.
Qed.

(** Extra X1. From [__init__], whatever readings arrive, the coordinator
    keeps [coord_inv]: its state is ["idle"] or a configured name and never
    ["unknown"]; [bitti_start_time] is only set in [bitti]; the active timer
    only runs in ["idle"]; the finished timer only in an active state; and
    [cycle_start_time] is set exactly in active states. *)
Theorem reachable_coord_invariant c t0 ticks :
  coord_inv c (snd (run c (init_coord t0) ticks)).
Proof. apply reachable_inv. Qed.

(** Extra X2. In every reachable state at most one of the two debounce
    timers ([active_timer_start], [finished_timer_start]) is running. *)
Theorem reachable_timers_exclusive c t0 ticks :
  let st := snd (run c (init_coord t0) ticks) in
  active_timer_start st = None \/ finished_timer_start st = None.
Proof.
  cbv zeta. destruct (reachable_inv c t0 ticks) as (_ & _ & _ & Hat & Hft & _).
  destruct (String.eqb (current_state (snd (run c (init_coord t0) ticks))) "idle") eqn:E.
  - right. apply Hft. apply String.eqb_eq in E. rewrite E. reflexivity.
  - left. apply Hat. apply String.eqb_neq. exact E.
Qed.

Lemma inv_not_bitti c st :
  coord_inv c st -> has_bitti_state c = false -> current_state st <> "bitti".
Proof.
  intros (_ & Hcfg & _) Hh Hb. rewrite Hb in Hcfg.
  destruct Hcfg as [Hc|(sd & Hin & Hn)]; [discriminate|].
  assert (has_bitti_state c = true); [|congruence].
  unfold has_bitti_state. apply existsb_exists. exists sd. rewrite Hn. auto.
Qed.

Lemma state_trace_inv c st ticks s :
  coord_inv c st -> In s (state_trace c st ticks) ->
  exists st', coord_inv c st' /\ current_state st' = s.
Proof.
  revert st. induction ticks as [|[now r] rest IH]; simpl; intros st H Hin; [contradiction|].
  destruct Hin as [<-|Hin].
  - eexists. split; [apply async_update_inv, H|reflexivity].
  - apply (IH _ (async_update_inv c now st r H) Hin).
Qed.

(** Extra X3. If no configured state is named [bitti], the coordinator
    never enters [bitti], whatever the readings. *)
Theorem no_bitti_state_never_finishes c t0 ticks :
  has_bitti_state c = false -> ~ In "bitti" (state_trace c (init_coord t0) ticks).
Proof.
  intros Hh Hin.
  destruct (state_trace_inv c _ ticks "bitti" (init_coord_inv c t0) Hin) as (st & Hi & Hs).
  exact (inv_not_bitti c st Hi Hh Hs).
Qed.

Lemma no_bitti_state_never_finishes_witness :
  ~ In "bitti" (state_trace scenario_a (init_coord 0) scenario_a_ticks).
Proof. apply no_bitti_state_never_finishes. vm_compute. reflexivity. Defined.

(** Extra X4. After a valid reading in a reachable state, the Active binary
    sensor's [is_on] is [True] exactly when the coordinator has a cycle open
    ([cycle_start_time] set). *)
Theorem active_sensor_iff_cycle_open c t0 ticks now r p :
  valid_reading r p ->
  let st := snd (run c (init_coord t0) ticks) in
  let '(d, st') := async_update_data c now st r in
  active_sensor_is_on d =
    PyBool (match cycle_start_time st' with Some _ => true | None => false end).
Proof.
  intros Hv. cbv zeta. rewrite (async_update_valid _ _ _ _ _ Hv).
  pose proof (process_power_inv c now _ p (reachable_inv c t0 ticks)) as (_ & _ & _ & _ & _ & Hc).
  pose proof (process_power_snapshot c now (snd (run c (init_coord t0) ticks)) p) as Hs.
  destruct (process_power _ _ _ _) as [d st']. simpl in Hs, Hc. subst d.
  unfold active_sensor_is_on, dict_get_or. rewrite build_snapshot_is_active.
  destruct (cycle_start_time st'); f_equal.
  - apply (proj1 Hc). discriminate.
  - destruct (is_active_name (current_state st')); [|reflexivity].
    exfalso. apply (proj2 Hc); reflexivity.
Qed.

Lemma active_sensor_iff_cycle_open_witness :
  let st := snd (run scenario_a (init_coord 0) scenario_a_ticks) in
  let '(d, st') := async_update_data scenario_a (sec 1000) st (numeric 80) in
  active_sensor_is_on d =
    PyBool (match cycle_start_time st' with Some _ => true | None => false end).
Proof.
  apply (active_sensor_iff_cycle_open scenario_a 0 scenario_a_ticks (sec 1000) (numeric 80) 80).
  exists (mk_sensor_state "number" (Some 80%Q)). vm_compute. auto.
Defined.

(** Extra X5. After a valid reading in a reachable state the entities are
    available, provided no configured state is named ["error"]. *)
Theorem entity_available_after_valid_tick c t0 ticks now r p :
  (forall sd, In sd (states_config c) -> sd_name sd <> "error") ->
  valid_reading r p ->
  entity_available true (fst (async_update_data c now (snd (run c (init_coord t0) ticks)) r)) = true.
Proof.
  intros Hne Hv. rewrite (async_update_valid _ _ _ _ _ Hv).
  pose proof (process_power_inv c now _ p (reachable_inv c t0 ticks)) as (_ & Hcfg & _).
  rewrite process_power_snapshot. unfold entity_available.
  rewrite build_snapshot_current_state. unfold pyval_is_str.
  destruct (String.eqb (current_state (snd (process_power c now _ p))) "error") eqn:E;
    [|reflexivity].
  apply String.eqb_eq in E. rewrite E in Hcfg.
  destruct Hcfg as [Hc|(sd & Hin & Hn)]; [discriminate|]. exfalso. exact (Hne sd Hin Hn).
Qed.

Lemma entity_available_after_valid_tick_witness :
  entity_available true
    (fst (async_update_data scenario_a (sec 1000)
            (snd (run scenario_a (init_coord 0) scenario_a_ticks)) (numeric 80))) = true.
Proof.
  apply (entity_available_after_valid_tick scenario_a 0 scenario_a_ticks (sec 1000)
           (numeric 80) 80).
  - intros sd [<-|[<-|[]]]; discriminate.
  - exists (mk_sensor_state "number" (Some 80%Q)). vm_compute. auto.
Defined.

(** Extra X6. No snapshot, built or error, has a ["power"] or an
    ["avg_power"] key, so the power sensor always rounds its default 0.0. *)
Theorem snapshot_has_no_power_key c now st r :
  let d := fst (async_update_data c now st r) in
  dict_get d "power" = None /\ dict_get d "avg_power" = None /\
  power_sensor_source d = PyFloat 0%Q.
Proof.
  cbv zeta. destruct (async_update_data_snapshot c now st r) as [H|(st' & H)];
    rewrite H; repeat split.
Qed.

Lemma snapshot_keys c now st r :
  let d := fst (async_update_data c now st r) in
  dict_get d "avg_power" = None /\ dict_get d "state" = None.
Proof.
  cbv zeta. destruct (async_update_data_snapshot c now st r) as [H|(st' & H)];
    rewrite H; split; reflexivity.
Qed.

(** Extra X7. Fed a coordinator snapshot, the energy sensor never changes
    [energy_this_cycle]; it only moves [last_update_time] to the update's
    time. *)
Theorem energy_sensor_frozen_on_snapshots c now st r now' e :
  energy_handle_update now' (fst (async_update_data c now st r)) e =
    Some (mk_energy_sensor (energy_this_cycle e) now').
Proof.
  destruct (snapshot_keys c now st r) as [Ha Hs]. cbv zeta in Ha, Hs.
  unfold energy_handle_update, dict_get_or. rewrite Ha, Hs. reflexivity.
Qed.

(** Extra X8. Fed a coordinator snapshot, the cycle duration sensor changes
    nothing: it never starts or ends a cycle and never counts one. *)
Theorem cycle_sensor_frozen_on_snapshots c now st r now' cs :
  cycle_handle_update now' (fst (async_update_data c now st r)) cs = cs.
Proof.
  destruct (snapshot_keys c now st r) as [_ Hs]. cbv zeta in Hs.
  unfold cycle_handle_update, dict_get_or. rewrite Hs. cbn.
  destruct (cs_cycle_start cs); reflexivity.
Qed.

(** Extra X9. One update of the cycle duration sensor either keeps
    [total_cycles] and [last_cycle_duration] and leaves an open cycle's start
    as it was, or closes the open cycle: [total_cycles] grows by one and
    [last_cycle_duration] is the value the sensor showed for the cycle. *)
Theorem cycle_handle_update_counts now d cs :
  let cs' := cycle_handle_update now d cs in
  (cs_total_cycles cs' = cs_total_cycles cs /\
   cs_last_cycle_duration cs' = cs_last_cycle_duration cs /\
   (cs_cycle_start cs <> None -> cs_cycle_start cs' = cs_cycle_start cs)) \/
  (cs_total_cycles cs' = cs_total_cycles cs + 1 /\
   cs_cycle_start cs <> None /\ cs_cycle_start cs' = None /\
   cs_last_cycle_duration cs' = cycle_native_value now cs).
Proof.
  cbv zeta. unfold cycle_handle_update, cycle_native_value.
  destruct (pyval_is_str _ STATE_RUNNING).
  - destruct (cs_cycle_start cs) eqn:E; left; cbn; rewrite ?E.
    + repeat split.
    + repeat split. intros H. contradiction H. reflexivity.
  - destruct (cs_cycle_start cs) eqn:E.
    + destruct (_ || _).
      * right. cbn. repeat split. discriminate.
      * left. rewrite E. repeat split.
    + left. repeat split; auto.
Qed.

(** Extra X10. The [hours], [minutes] and [seconds] attributes of the state
    duration sensor recombine to the duration, for every integer duration,
    with [minutes] and [seconds] in [0, 59]. *)
Theorem duration_parts_roundtrip duration :
  let '(hours, minutes, seconds) := duration_parts duration in
  hours * 3600 + minutes * 60 + seconds = duration /\
  0 <= minutes < 60 /\ 0 <= seconds < 60.
Proof.
  unfold duration_parts.
  pose proof (Z.div_mod duration 3600 ltac:(lia)) as H1.
  pose proof (Z.mod_pos_bound duration 3600 ltac:(lia)) as B1.
  pose proof (Z.div_mod (duration mod 3600) 60 ltac:(lia)) as H2.
  pose proof (Z.mod_pos_bound duration 60 ltac:(lia)) as B2.
  assert (Hm : (duration mod 3600) mod 60 = duration mod 60).
  { rewrite (Z.mod_eq duration 3600) by lia.
    replace (duration - 3600 * (duration / 3600))
      with (duration + (- (duration / 3600) * 60) * 60) by ring.
    apply Z.mod_add. lia. }
  rewrite Hm in H2.
  assert (B3 : 0 <= (duration mod 3600) / 60 < 60).
  { split; [apply Z.div_pos; lia|]. apply Z.div_lt_upper_bound; lia. }
  repeat split; lia.
Qed.

(** Extra X11. When no [greater] rule is satisfied and some [less] rule is,
    the classifier returns a satisfied [less] rule whose threshold is the
    smallest among the satisfied [less] rules. *)
Theorem classifier_less_priority c power s0 :
  (forall s, In s (states_config c) -> sd_comparison s = COMPARISON_GREATER ->
     greater_matches power s = false) ->
  In s0 (states_config c) -> sd_comparison s0 = COMPARISON_LESS ->
  less_matches power s0 = true ->
  exists s, In s (states_config c) /\ sd_comparison s = COMPARISON_LESS /\
    less_matches power s = true /\
    determine_state_by_thresholds c power = sd_name s /\
    forall s', In s' (states_config c) -> sd_comparison s' = COMPARISON_LESS ->
      less_matches power s' = true -> (sd_threshold s <= sd_threshold s')%Q.
Proof.
  intros Hng Hin0 Hc0 Hm0. unfold determine_state_by_thresholds.
  pose proof (split_by_comparison_fst (states_config c)) as Hf.
  pose proof (split_by_comparison_snd (states_config c)) as Hs.
  destruct (split_by_comparison (states_config c)) as [g le]; simpl in Hf, Hs.
  assert (Hg : first_match (greater_matches power) (sort_desc g) = None).
  { apply first_match_None. intros s Hin. apply sort_by_In, Hf in Hin as [Hin Hc].
    apply Hng; assumption. }
  rewrite Hg.
  destruct (first_match (less_matches power) (sort_asc le)) as [n|] eqn:E.
  - destruct (first_match_Some_sorted _ _ _ _ (sort_asc_sorted le) E)
      as (s & Hin & Hts & Hn & Hmin).
    pose proof Hin as Hin'. apply sort_by_In, Hs in Hin' as [Hin' Hc].
    exists s. repeat split; auto.
    intros s' Hs' Hc' Hm'.
    assert (Hs'' : In s' (sort_asc le)) by (apply sort_by_In, Hs; auto).
    destruct (Hmin s' Hs'' Hm') as [->|Hle].
    + apply Qle_refl.
    + apply Qle_bool_iff. exact Hle.
  - exfalso. apply first_match_None with (s := s0) in E.
    + congruence.
    + apply sort_by_In, Hs. auto.
Qed.

Lemma classifier_less_priority_witness :
  exists s, In s (states_config scenario_a) /\
    determine_state_by_thresholds scenario_a 2%Q = sd_name s.
Proof.
  destruct (classifier_less_priority scenario_a 2%Q
              (mk_state_def "done" 5 COMPARISON_LESS "mdi:check"))
    as (s & Hin & _ & _ & Hd & _).
  - intros s [<-|[<-|[]]]; [reflexivity|intros H; discriminate H].
  - right. left. reflexivity.
  - reflexivity.
  - vm_compute. reflexivity.
  - exists s. split; assumption.
Defined.

(** Extra X12. The classifier returns ["idle"], ["unknown"] or the name of a
    configured state whose comparison is [greater] or [less]. *)
Theorem classifier_result_range c power :
  let ts := determine_state_by_thresholds c power in
  ts = "idle" \/ ts = "unknown" \/
  exists sd, In sd (states_config c) /\ sd_name sd = ts /\
    (sd_comparison sd = COMPARISON_GREATER \/ sd_comparison sd = COMPARISON_LESS).
Proof.
  cbv zeta. unfold determine_state_by_thresholds.
  pose proof (split_by_comparison_fst (states_config c)) as Hf.
  pose proof (split_by_comparison_snd (states_config c)) as Hs.
  destruct (split_by_comparison (states_config c)) as [g le]; simpl in Hf, Hs.
  destruct (first_match _ (sort_desc g)) as [n|] eqn:E1.
  - destruct (first_match_name _ _ _ E1) as (s & Hin & Hn).
    apply sort_by_In, Hf in Hin as [Hin Hc]. right; right. eauto.
  - destruct (first_match _ (sort_asc le)) as [n|] eqn:E2.
    + destruct (first_match_name _ _ _ E2) as (s & Hin & Hn).
      apply sort_by_In, Hs in Hin as [Hin Hc]. right; right. eauto.
    + destruct (negb _ && _); auto.
Qed.

(** Extra X13. After a valid reading, [state_start_time] is unchanged if the
    state stayed the same and is the tick's time if the state changed. *)
Theorem state_start_time_on_tick c now st p :
  let st' := snd (process_power c now st p) in
  state_start_time st' =
    if String.eqb (current_state st') (current_state st) then state_start_time st
    else now.
Proof.
  cbv zeta. unfold process_power.
  pose proof (apply_delays_frame c now (set_power st p) (determine_state_by_thresholds c p))
    as (Hs1 & Ht1 & _).
  destruct (apply_delays _ _ _ _) as [ns st1]. proj_simpl.
  pose proof (check_idle_delay_frame c now st1 ns) as (Hs2 & Ht2 & _).
  destruct (check_idle_delay _ _ _ _) as [ns' st2]. proj_simpl.
  destruct (String.eqb ns' (current_state st2)) eqn:E; cbn [build_snapshot snd].
  - rewrite Hs2, Hs1, str_eqb_refl, Ht2, Ht1. reflexivity.
  - unfold on_state_change. cbn [current_state state_start_time].
    rewrite Hs2, Hs1 in E. rewrite E. reflexivity.
Qed.

(** Extra X14. In an active state, a reading classified as a name other than
    ["unknown"] and [bitti] is adopted at once, with no delay, and the
    finished timer is cleared. *)
Theorem active_adopts_classification c now st p :
  is_active_name (current_state st) = true ->
  determine_state_by_thresholds c p <> "unknown" ->
  determine_state_by_thresholds c p <> "bitti" ->
  current_state (snd (process_power c now st p)) = determine_state_by_thresholds c p /\
  finished_timer_start (snd (process_power c now st p)) = None.
Proof.
  intros Ha Hu Hb. destruct (is_active_name_spec _ Ha) as (Ei & Eb & _).
  apply String.eqb_neq in Hu, Hb.
  assert (Ead : apply_delays c now (set_power st p) (determine_state_by_thresholds c p) =
                (determine_state_by_thresholds c p, set_finished_timer (set_power st p) None)).
  { unfold apply_delays. cbv zeta. proj_simpl. rewrite Ei, Ha, Hb, Hu, andb_false_r.
    reflexivity. }
  assert (Eci : check_idle_delay c now (set_finished_timer (set_power st p) None)
                  (determine_state_by_thresholds c p) =
                (determine_state_by_thresholds c p,
                 set_bitti_start (set_finished_timer (set_power st p) None) None)).
  { unfold check_idle_delay. proj_simpl. rewrite Eb, Hb. reflexivity. }
  destruct (process_power_final _ _ _ _ _ _ _ _ Ead Eci) as (Hs & _ & _ & Hf & _).
  split; [exact Hs|]. rewrite Hf. reflexivity.
Qed.

Lemma active_adopts_classification_witness :
  let st := mk_coord 80%Q "run" 0 (Some 0) None (Some 0) None in
  current_state (snd (process_power scenario_a (sec 100) st 2%Q)) =
    determine_state_by_thresholds scenario_a 2%Q /\
  finished_timer_start (snd (process_power scenario_a (sec 100) st 2%Q)) = None.
Proof.
  apply active_adopts_classification; vm_compute; [reflexivity|discriminate|discriminate].
Defined.

(** Extra X15. Removing a rejected reading from the ticks does not change
    the coordinator's final attributes. *)
Theorem run_skips_invalid c st ticks1 ticks2 now r :
  invalid_reading r ->
  snd (run c st (ticks1 ++ (now, r) :: ticks2)) = snd (run c st (ticks1 ++ ticks2)).
Proof.
  intros Hr. revert st. induction ticks1 as [|[t r'] rest IH]; intros st; simpl app.
  - rewrite run_cons_snd, async_update_invalid by exact Hr. reflexivity.
  - rewrite !run_cons_snd. apply IH.
Qed.

Lemma run_skips_invalid_witness :
  snd (run scenario_a (init_coord 0) (firstn 10 scenario_a_ticks ++ (sec 95, None) :: skipn 10 scenario_a_ticks)) =
  snd (run scenario_a (init_coord 0) (firstn 10 scenario_a_ticks ++ skipn 10 scenario_a_ticks)).
Proof. apply run_skips_invalid. left. reflexivity. Defined.

Lemma build_snapshot_keys c now st :
  let d := build_snapshot c now st in
  dict_get d "idle_remaining" =
    Some (PyInt (if String.eqb (current_state st) "bitti"
                 then Z.max 0 (idle_delay c -
                        (match bitti_start_time st with
                         | Some t => seconds_since t now
                         | None => 0
                         end))
                 else 0)) /\
  dict_get d "timers" =
    Some (PyDict [("active_timer", PyInt (get_timer_duration now (active_timer_start st)));
                  ("finished_timer", PyInt (get_timer_duration now (finished_timer_start st)))]) /\
  dict_get d "timing_settings" = Some (timing_settings c).
Proof.
  cbv zeta. split; [|split; reflexivity].
  unfold build_snapshot. cbv zeta.
  destruct (String.eqb (current_state st) "bitti"); reflexivity.
Qed.

(** Extra X16. After a valid reading in a reachable state, the Active binary
    sensor's [status_message] is ["Hazır"] outside [bitti] and
    ["Bekliyor (<n>s)"] in [bitti]; the ["Aktif oluyor"] message never appears,
    not even while the active timer runs in ["idle"]. *)
Theorem status_message_never_activating c t0 ticks now r p :
  valid_reading r p ->
  let st := snd (run c (init_coord t0) ticks) in
  let '(d, st') := async_update_data c now st r in
  (current_state st' <> "bitti" /\ status_message d = Some "Hazır") \/
  (current_state st' = "bitti" /\
   exists n, status_message d = Some ("Bekliyor (" ++ py_str_int n ++ "s)")).
Proof.
  intros Hv. cbv zeta. rewrite (async_update_valid _ _ _ _ _ Hv).
  pose proof (process_power_inv c now _ p (reachable_inv c t0 ticks)) as (Hu & _).
  pose proof (process_power_snapshot c now (snd (run c (init_coord t0) ticks)) p) as Hs.
  destruct (process_power _ _ _ _) as [d st']. simpl in Hs, Hu. subst d.
  destruct (build_snapshot_keys c now st') as (Hi & Ht & Hg).
  unfold status_message, active_sensor_is_on, dict_get_or.
  rewrite build_snapshot_current_state, build_snapshot_is_active, Hi, Ht, Hg.
  unfold timing_settings.
  cbn [pyval_get dict_get_or dict_get pyval_int pyval_truthy pyval_is_str negb andb].
  eqb_lit.
  cbn [pyval_get dict_get_or dict_get pyval_int pyval_truthy pyval_is_str negb andb].
  unfold is_active_name, str_in. cbn [existsb orb negb andb].
  destruct (String.eqb (current_state st') "bitti") eqn:Eb.
  - right. split; [apply String.eqb_eq; exact Eb|]. eexists. reflexivity.
  - left. split; [apply String.eqb_neq; exact Eb|].
    destruct (String.eqb (current_state st') "idle") eqn:Ei; [reflexivity|].
    destruct (String.eqb (current_state st') "unknown") eqn:Ek; [|reflexivity].
    apply String.eqb_eq in Ek. contradiction.
Qed.

Lemma status_message_never_activating_witness :
  let st := snd (run scenario_a_bitti (init_coord 0) scenario_a_ticks) in
  let '(d, st') := async_update_data scenario_a_bitti (sec 1000) st (numeric 2) in
  (current_state st' <> "bitti" /\ status_message d = Some "Hazır") \/
  (current_state st' = "bitti" /\
   exists n, status_message d = Some ("Bekliyor (" ++ py_str_int n ++ "s)")).
Proof.
  apply (status_message_never_activating scenario_a_bitti 0 scenario_a_ticks (sec 1000)
           (numeric 2) 2).
  exists (mk_sensor_state "number" (Some 2%Q)). vm_compute. auto.
Defined.

(** Extra X17. On a rejected reading the error snapshot makes the Active
    binary sensor report ["Aktif oluyor (<active_delay>s)"] when
    [active_delay] is not negative. *)
Theorem error_snapshot_status_activating c now st r :
  invalid_reading r -> 0 <= active_delay c ->
  status_message (fst (async_update_data c now st r)) =
    Some ("Aktif oluyor (" ++ py_str_int (active_delay c) ++ "s)").
Proof.
  intros Hr Hd. rewrite async_update_invalid by exact Hr. cbn [fst].
  unfold status_message, create_error_data, timing_settings, active_sensor_is_on, dict_get_or.
  simpl.
  destruct (0 <? active_delay c) eqn:E.
  - rewrite Z.max_r by lia. rewrite Z.sub_0_r. reflexivity.
  - replace (active_delay c) with 0 by (apply Z.ltb_ge in E; lia). reflexivity.
Qed.

Lemma error_snapshot_status_activating_witness :
  status_message (fst (async_update_data scenario_a 0 (init_coord 0) None)) =
    Some ("Aktif oluyor (" ++ py_str_int 60 ++ "s)").
Proof. apply (error_snapshot_status_activating scenario_a 0 (init_coord 0) None); [left; reflexivity|vm_compute; discriminate]. Defined.

Lemma find_name_unique (l : list state_def) sd :
  NoDup (map sd_name l) -> In sd l ->
  find (fun s => String.eqb (sd_name s) (sd_name sd)) l = Some sd.
Proof.
  induction l as [|x rest IH]; simpl; intros Hnd Hin; [contradiction|].
  inversion Hnd as [|? ? Hnotin Hnd']; subst.
  destruct Hin as [<-|Hin].
  - rewrite str_eqb_refl. reflexivity.
  - destruct (String.eqb (sd_name x) (sd_name sd)) eqn:E.
    + apply String.eqb_eq in E. exfalso. apply Hnotin. rewrite E.
      apply in_map. exact Hin.
    + apply IH; assumption.
Qed.

(** Extra X18. With distinct state names, a snapshot whose state is a
    configured state shows that state's icon. *)
Theorem snapshot_icon_of_state c now st sd :
  NoDup (map sd_name (states_config c)) ->
  In sd (states_config c) -> sd_name sd = current_state st ->
  dict_get (build_snapshot c now st) "current_icon" = Some (PyStr (sd_icon sd)).
Proof.
  intros Hnd Hin Hn. unfold build_snapshot. cbv zeta.
  rewrite <- Hn, find_name_unique.
  - reflexivity.
  - rewrite map_rev. apply NoDup_rev. exact Hnd.
  - apply in_rev. rewrite rev_involutive. exact Hin.
Qed.

Lemma snapshot_icon_of_state_witness :
  dict_get (build_snapshot scenario_a 0 (mk_coord 80%Q "run" 0 (Some 0) None None None))
    "current_icon" = Some (PyStr "mdi:play").
Proof.
  apply (snapshot_icon_of_state scenario_a 0 _ (mk_state_def "run" 50 COMPARISON_GREATER "mdi:play")).
  - vm_compute. repeat constructor; simpl; intuition discriminate.
  - left. reflexivity.
  - reflexivity.
Defined.
